(** * AnimatedFAB: extend transition, text measurement and colour resolution

    A shallow embedding of [src/components/FAB/AnimatedFAB.tsx].  The
    component is a function of its props and of two pieces of state (the
    measured label width and height); every visual attribute is either a
    constant, a value derived from the measured width, or an interpolation of
    the single animated value [animFAB].

    Numbers are modelled as exact rationals [Q]: the arithmetic of the
    component ([SIZE / 2], [1.5 * SIZE], [0.9 * distance], linear
    interpolation) is carried out without rounding, and [NaN] and the
    infinities are not represented.  Equality of numbers is [Qeq] ([==]). *)

From Stdlib Require Import QArith Qabs Qround Qminmax Lqa List Bool ZArith.
Import ListNotations.
Open Scope Q_scope.

(** ** JavaScript preliminaries *)

Inductive JsError : Type :=
| TypeError           (* property read on [undefined] *)
| InvariantViolation. (* a failed [invariant(...)] of the host library *)

Inductive result (A : Type) : Type :=
| Ok (a : A)
| Throw (e : JsError).

Arguments Ok {A} a.
Arguments Throw {A} e.

Definition bind {A B : Type} (r : result A) (k : A -> result B) : result B :=
  match r with
  | Ok a => k a
  | Throw e => Throw e
  end.

Notation "x <- r ;; k" := (bind r (fun x => k))
  (at level 61, r at next level, right associativity).

(** [v = dflt] in a destructuring pattern: the default applies when the
    property is [undefined]. *)
Definition withDefault {A : Type} (o : option A) (dflt : A) : A :=
  match o with
  | Some a => a
  | None => dflt
  end.

Module Math.

Definition ceil (x : Q) : Q := inject_Z (Qceiling x).

Definition abs (x : Q) : Q := Qabs x.

End Math.

(** ** The colour utility

    A colour string is represented by the colour it denotes: three channels
    and an alpha.  [color s] (parsing), [.rgb()] (conversion to the RGB model)
    and [.string()] (printing) are then the identity on the denotation, and
    [.alpha(a)] replaces the alpha channel. *)

Module Color.

Record t : Type := RGBA { red : Z; green : Z; blue : Z; opacity : Q }.

Definition color (s : t) : t := s.

Definition alpha (c : t) (a : Q) : t :=
  {| red := red c; green := green c; blue := blue c; opacity := a |}.

Definition rgb (c : t) : t := c.

Definition string (c : t) : t := c.

End Color.

(** Modelled from the spec: the palette constants [white] and [black] that
    the component imports from [styles/colors]; they are the neutral inks,
    pure white and pure black. *)
Definition white : Color.t := Color.RGBA 255 255 255 1.
Definition black : Color.t := Color.RGBA 0 0 0 1.

(** The literal ['rgba(0, 0, 0, .54)'] of the component. *)
Definition rgba_0_0_0_54 : Color.t := Color.RGBA 0 0 0 0.54.

Section ContrastSelection.

(** The contrast measure of the colour utility: [contrast ink bg] is how
    strongly [ink] stands out against [bg]. *)
Variable contrast : Color.t -> Color.t -> Q.

(** Modelled from the spec: [getContrastingColor], which the component
    imports from [utils/getContrastingColor].  Of the two inks [light] and
    [dark] it returns the one that yields the higher contrast against
    [input]. *)
Definition getContrastingColor (input light dark : Color.t) : Color.t :=
  if Qle_bool (contrast dark input) (contrast light input)
  then light
  else dark.

End ContrastSelection.

(** ** The host's interpolation of an animated value

    [animFAB.interpolate({inputRange, outputRange})] is a primitive of the
    host animation library, not of the component.  It is modelled after the
    library's own algorithm: the configuration is validated when the
    interpolation is created, the segment is located by [findRange], and the
    value is mapped linearly on that segment, extended linearly outside the
    input range (the component passes neither [extrapolate] nor [easing]). *)

Module Animated.

Record InterpolationConfig : Type :=
  { inputRange : list Q; outputRange : list Q }.

(** [for (i = 1; i < arr.length; ++i) invariant(arr[i] >= arr[i - 1])] *)
Fixpoint nonDecreasing (arr : list Q) : bool :=
  match arr with
  | x :: (y :: _) as rest => Qle_bool x y && nonDecreasing rest
  | _ => true
  end.

Definition checkValidInputRange (arr : list Q) : bool :=
  (2 <=? length arr)%nat && nonDecreasing arr.

(** The loop of [findRange], with [rest] the input range from index [i]:
    [for (i = 1; i < inputRange.length - 1; ++i)
       if (inputRange[i] >= input) break;] *)
Fixpoint findRangeLoop (input : Q) (i : nat) (rest : list Q) : nat :=
  match rest with
  | x :: (_ :: _) as rest' =>
      if Qle_bool input x then i else findRangeLoop input (S i) rest'
  | _ => i
  end.

Definition findRange (input : Q) (inputRange : list Q) : nat :=
  (findRangeLoop input 1 (tl inputRange) - 1)%nat.

(** The linear map of one segment, with the default [extend]
    extrapolation and the linear easing. *)
Definition interpolate
    (input inputMin inputMax outputMin outputMax : Q) : Q :=
  if Qeq_bool outputMin outputMax then outputMin
  else if Qeq_bool inputMin inputMax then
    (if Qle_bool input inputMin then outputMin else outputMax)
  else
    let result := (input - inputMin) / (inputMax - inputMin) in
    result * (outputMax - outputMin) + outputMin.

(** The segment arithmetic alone, with no validation of the ranges. *)
Definition interpolation (cfg : InterpolationConfig) (input : Q) : Q :=
  let range := findRange input (inputRange cfg) in
  interpolate input
    (nth range (inputRange cfg) 0)
    (nth (S range) (inputRange cfg) 0)
    (nth range (outputRange cfg) 0)
    (nth (S range) (outputRange cfg) 0).

Definition createInterpolation (cfg : InterpolationConfig)
  : result (Q -> Q) :=
  if checkValidInputRange (inputRange cfg)
     && (length (inputRange cfg) =? length (outputRange cfg))%nat
  then Ok (interpolation cfg)
  else Throw InvariantViolation.

(** The value of the node [value.interpolate(cfg)] when the animated value
    currently holds [value]. *)
Definition Value_interpolate (value : Q) (cfg : InterpolationConfig)
  : result Q :=
  f <- createInterpolation cfg ;; Ok (f value).

End Animated.

(** ** The component *)

Inductive AnimateFrom : Type := FromRight | FromLeft.

Inductive IconMode : Type := StaticIcon | DynamicIcon.

Record Theme : Type :=
  { dark : bool;
    colors_accent : Color.t;
    animation_scale : Q }.

(** The flattened [style] prop; only [backgroundColor] is read back. *)
Record ViewStyle : Type :=
  { backgroundColor : option Color.t }.

(** The props the transition, the measurement and the colours depend on.
    An optional prop that was not passed is [None]. *)
Record Props : Type :=
  { color : option Color.t;
    disabled : option bool;
    visible : option bool;
    iconMode : option IconMode;
    animateFrom : option AnimateFrom;
    extended : option bool;
    style : option ViewStyle;
    theme : Theme }.

(** The two [useState] cells, both initialised to [0]. *)
Record Measurement : Type :=
  { textWidth : Q; textHeight : Q }.

Definition initialMeasurement : Measurement :=
  {| textWidth := 0; textHeight := 0 |}.

Record TextLayoutLine : Type :=
  { width : Q; height : Q }.

Record TextLayoutEventData : Type :=
  { lines : list TextLayoutLine }.

Record NativeSyntheticEvent : Type :=
  { nativeEvent : TextLayoutEventData }.

(** A call of one of the two state setters. *)
Inductive SetState : Type :=
| setTextWidth (w : Q)
| setTextHeight (h : Q).

Definition applySetState (m : Measurement) (u : SetState) : Measurement :=
  match u with
  | setTextWidth w => {| textWidth := w; textHeight := textHeight m |}
  | setTextHeight h => {| textWidth := textWidth m; textHeight := h |}
  end.

(** The state of the next render after a batch of setter calls. *)
Definition commit (m : Measurement) (us : list SetState) : Measurement :=
  fold_left applySetState us m.

Definition SIZE : Q := 56.
Definition BORDER_RADIUS : Q := SIZE / 2.
Definition SCALE : Q := 0.9.

Record SidesPosition : Type :=
  { left_side : option Q; right_side : option Q }.

Record PillStyle : Type :=
  { height_of : Q;
    borderRadius_of : Q;
    translateX_of : Q;
    width_of : Q;
    backgroundColor_of : Color.t;
    sides_of : SidesPosition }.

Section Render.

Variable contrast : Color.t -> Color.t -> Q.
Variable props : Props.
Variable state : Measurement.
(** The value currently held by the animated value [animFAB]. *)
Variable animFAB : Q.

Definition isAnimatedFromRight : bool :=
  match withDefault (animateFrom props) FromRight with
  | FromRight => true
  | FromLeft => false
  end.

Definition isIconStatic : bool :=
  match withDefault (iconMode props) DynamicIcon with
  | StaticIcon => true
  | DynamicIcon => false
  end.

Definition isDisabled : bool := withDefault (disabled props) false.

Definition isExtended : bool := withDefault (extended props) false.

Definition neutralInk : Color.t :=
  if dark (theme props) then white else black.

Definition disabledColor : Color.t :=
  Color.string (Color.rgb (Color.alpha (Color.color neutralInk) 0.12)).

Definition resolvedBackgroundColor : Color.t :=
  withDefault
    (backgroundColor (withDefault (style props) {| backgroundColor := None |}))
    (if isDisabled then disabledColor else colors_accent (theme props)).

Definition foregroundColor : Color.t :=
  match color props with
  | Some customColor => customColor
  | None =>
      if isDisabled then
        Color.string (Color.rgb (Color.alpha (Color.color neutralInk) 0.32))
      else
        getContrastingColor contrast
          resolvedBackgroundColor white rgba_0_0_0_54
  end.

Definition rippleColor : Color.t :=
  Color.string (Color.rgb (Color.alpha (Color.color foregroundColor) 0.32)).

Definition extendedWidth : Q := textWidth state + 1.5 * SIZE.

Definition distance : Q :=
  if isAnimatedFromRight
  then - textWidth state - BORDER_RADIUS
  else textWidth state + BORDER_RADIUS.

(** The target handed to [Animated.timing] by the effect. *)
Definition toValue : Q := if negb isExtended then 0 else distance.

Definition onTextLayout (ev : NativeSyntheticEvent)
  : result (list SetState) :=
  match nth_error (lines (nativeEvent ev)) 0 with
  | None => Throw TypeError
  | Some line0 =>
      let currentWidth := Math.ceil (width line0) in
      let currentHeight := Math.ceil (height line0) in
      if negb (Qeq_bool currentWidth (textWidth state))
         || negb (Qeq_bool currentHeight (textHeight state))
      then Ok [setTextWidth currentWidth; setTextHeight currentHeight]
      else Ok []
  end.

Definition getSidesPosition : SidesPosition :=
  if isAnimatedFromRight
  then {| left_side := Some (- distance); right_side := None |}
  else {| left_side := None; right_side := Some distance |}.

(** *** The squashing wrapper *)

Definition wrapper_scaleY : result Q :=
  Animated.Value_interpolate animFAB
    {| Animated.inputRange :=
         if isAnimatedFromRight then [distance; 0] else [0; distance];
       Animated.outputRange :=
         if isAnimatedFromRight then [SCALE; 1] else [1; SCALE] |}.

(** *** The shadow of the expanded silhouette *)

Definition expandedShadow_width : Q := extendedWidth.

Definition expandedShadow_opacity_config : Animated.InterpolationConfig :=
  {| Animated.inputRange := [distance; 0.9 * distance; 0];
     Animated.outputRange := [1; 0.15; 0] |}.

Definition expandedShadow_opacity : result Q :=
  Animated.Value_interpolate animFAB expandedShadow_opacity_config.

(** *** The shadow of the collapsed silhouette *)

Definition collapsedShadow_opacity_config : Animated.InterpolationConfig :=
  {| Animated.inputRange := [distance; 0.9 * distance; 0];
     Animated.outputRange := [0; 0.85; 1] |}.

Definition collapsedShadow_opacity : result Q :=
  Animated.Value_interpolate animFAB collapsedShadow_opacity_config.

Definition collapsedShadow_width : Q := SIZE.

Definition collapsedShadow_borderRadius : result Q :=
  Animated.Value_interpolate animFAB
    {| Animated.inputRange := [distance; 0];
       Animated.outputRange :=
         [SIZE / (extendedWidth / SIZE); BORDER_RADIUS] |}.

Definition collapsedShadow_translateX : result Q :=
  Animated.Value_interpolate animFAB
    {| Animated.inputRange := [distance; 0];
       Animated.outputRange :=
         [Math.abs distance / 2; Math.abs distance] |}.

Definition collapsedShadow_scaleX : result Q :=
  Animated.Value_interpolate animFAB
    {| Animated.inputRange := [distance; 0];
       Animated.outputRange := [extendedWidth / SIZE; 1] |}.

(** *** The pill: [styles.standard], then the inline style, then
    [getSidesPosition()] *)

Definition pill_height : Q := SIZE.
Definition pill_borderRadius : Q := BORDER_RADIUS.
Definition pill_translateX : Q := animFAB.
Definition pill_width : Q := extendedWidth.
Definition pill_backgroundColor : Color.t := resolvedBackgroundColor.
Definition pill_sides : SidesPosition := getSidesPosition.

(** The merged style of the pill while the animated value holds
    [animFAB]: the attributes as they are written, before the wrapper clips
    the pill (see [pill_painted]). *)
Definition pillStyle : PillStyle :=
  {| height_of := pill_height;
     borderRadius_of := pill_borderRadius;
     translateX_of := pill_translateX;
     width_of := pill_width;
     backgroundColor_of := pill_backgroundColor;
     sides_of := pill_sides |}.

(** *** The icon *)

Definition icon_translateX : Q := animFAB.
Definition icon_sides : SidesPosition := getSidesPosition.

(** *** The label *)

Definition label_minWidth : Q := textWidth state.

Definition label_top : Q := - BORDER_RADIUS - textHeight state / 2.

Definition label_opacity_config : Animated.InterpolationConfig :=
  {| Animated.inputRange :=
       if isAnimatedFromRight
       then [distance; 0.7 * distance; 0]
       else [0; 0.7 * distance; distance];
     Animated.outputRange :=
       if isAnimatedFromRight then [1; 0; 0] else [0; 0; 1] |}.

Definition label_opacity : result Q :=
  Animated.Value_interpolate animFAB label_opacity_config.

Definition label_translateX : result Q :=
  Animated.Value_interpolate animFAB
    {| Animated.inputRange :=
         if isAnimatedFromRight then [distance; 0] else [0; distance];
       Animated.outputRange :=
         if isAnimatedFromRight then [0; SIZE] else [- SIZE; 0] |}.

Definition label_sides : SidesPosition :=
  if isAnimatedFromRight
  then {| left_side := None;
          right_side := Some (if isIconStatic then SIZE else BORDER_RADIUS) |}
  else {| left_side := Some (if isIconStatic then SIZE else BORDER_RADIUS);
          right_side := None |}.

Definition label_color : Color.t := foregroundColor.

End Render.

(** ** The pill as it is painted

    The pill is the only child of the [innerWrapper] view, a row with
    [overflow: 'hidden'].  The wrapper has no width of its own, so it is as
    wide as the pill is laid out, [extendedWidth]; the offset pinned by
    [getSidesPosition] and the [translateX] transform then move the pill
    without changing the layout, and the wrapper paints only the part of the
    pill that remains inside it. *)

(** A horizontal interval, in the coordinates of the wrapper. *)
Record Extent : Type :=
  { extent_start : Q; extent_end : Q }.

Definition extent_width (e : Extent) : Q :=
  Qmax 0 (extent_end e - extent_start e).

(** What a parent with [overflow: 'hidden'] lets through of a child. *)
Definition clipTo (parent child : Extent) : Extent :=
  {| extent_start := Qmax (extent_start parent) (extent_start child);
     extent_end := Qmin (extent_end parent) (extent_end child) |}.

(** The shift of a relatively positioned view: [left] moves it to the
    right, [right], when [left] is undefined, to the left. *)
Definition sidesShift (s : SidesPosition) : Q :=
  match left_side s, right_side s with
  | Some l, _ => l
  | None, Some r => - r
  | None, None => 0
  end.

Section Layout.

Variable props : Props.
Variable state : Measurement.
Variable animFAB : Q.

(** [styles.innerWrapper] *)
Definition innerWrapper_overflowHidden : bool := true.
Definition innerWrapper_borderRadius : Q := BORDER_RADIUS.

Definition innerWrapper_extent : Extent :=
  {| extent_start := 0; extent_end := pill_width state |}.

Definition pill_extent : Extent :=
  let x := sidesShift (pill_sides props state) + pill_translateX animFAB in
  {| extent_start := x; extent_end := x + pill_width state |}.

Definition pill_painted : Extent :=
  if innerWrapper_overflowHidden
  then clipTo innerWrapper_extent pill_extent
  else pill_extent.

Definition pill_paintedWidth : Q := extent_width pill_painted.

End Layout.

(** ** Effects and event handling across renders *)

(** The configuration the effects hand to [Animated.timing]. *)
Record TimingConfig : Type :=
  { timing_toValue : Q;
    timing_duration : Q;
    timing_useNativeDriver : bool }.

Section Effects.

Variable props : Props.
Variable state : Measurement.

Definition isVisible : bool := withDefault (visible props) true.

(** [new Animated.Value(visible ? 1 : 0)], created on the first render. *)
Definition initialVisibility : Q := if isVisible then 1 else 0.

(** [new Animated.Value(0)], created on the first render. *)
Definition initialAnimFAB : Q := 0.

(** The effect on [[visible, scale, visibility]]. *)
Definition visibilityTiming : TimingConfig :=
  if isVisible
  then {| timing_toValue := 1;
          timing_duration := 200 * animation_scale (theme props);
          timing_useNativeDriver := true |}
  else {| timing_toValue := 0;
          timing_duration := 150 * animation_scale (theme props);
          timing_useNativeDriver := true |}.

(** The effect on [[animFAB, scale, distance, extended]]. *)
Definition extendTiming : TimingConfig :=
  {| timing_toValue := toValue props state;
     timing_duration := 150 * animation_scale (theme props);
     timing_useNativeDriver := true |}.

End Effects.

(** One text-layout event: the handler of the current render runs against
    the stored measurement, and the setter calls it makes give the stored
    measurement of the next render.  An exception leaves the handler. *)
Definition handleTextLayout (st : Measurement) (ev : NativeSyntheticEvent)
  : result Measurement :=
  us <- onTextLayout st ev ;; Ok (commit st us).

(** [handledInTurn st evs st']: every event of [evs] was handled in turn,
    each one by the render that the setter calls of the previous one
    produced, every call of the handler returned, and [st'] is the stored
    measurement in the end.  Each event is a call of its own of the handler;
    nothing is said of a call that raises. *)
Inductive handledInTurn
  : Measurement -> list NativeSyntheticEvent -> Measurement -> Prop :=
| handled_none (st : Measurement) :
    handledInTurn st [] st
| handled_next (st st1 st' : Measurement)
    (ev : NativeSyntheticEvent) (evs : list NativeSyntheticEvent) :
    handleTextLayout st ev = Ok st1 ->
    handledInTurn st1 evs st' ->
    handledInTurn st (ev :: evs) st'.

(** The event reports at least one line. *)
Definition hasFirstLine (ev : NativeSyntheticEvent) : bool :=
  match lines (nativeEvent ev) with
  | [] => false
  | _ :: _ => true
  end.

(** The animated value [v] lies between the collapsed endpoint [0] and the
    endpoint [d], whatever the sign of [d]. *)
Definition betweenEndpoints (d v : Q) : Prop :=
  (d <= v /\ v <= 0) \/ (0 <= v /\ v <= d).

(** ** Inputs used to run the component on examples *)

Definition lightTheme : Theme :=
  {| dark := false; colors_accent := Color.RGBA 3 218 196 1;
     animation_scale := 1 |}.

Definition darkTheme : Theme :=
  {| dark := true; colors_accent := Color.RGBA 3 218 196 1;
     animation_scale := 1 |}.

(** Only the required props are passed: every optional prop takes its
    default, in particular [animateFrom = 'right']. *)
Definition defaultProps (th : Theme) : Props :=
  {| color := None; disabled := None; visible := None; iconMode := None;
     animateFrom := None; extended := None; style := None; theme := th |}.

Definition extendedFrom (dir : AnimateFrom) : Props :=
  {| color := None; disabled := None; visible := None; iconMode := None;
     animateFrom := Some dir; extended := Some true; style := None;
     theme := lightTheme |}.

Definition disabledProps (th : Theme) : Props :=
  {| color := None; disabled := Some true; visible := None; iconMode := None;
     animateFrom := None; extended := None; style := None; theme := th |}.

(** The caller passes the [color] override [c]. *)
Definition overrideProps (c : Color.t) (isDisabled : option bool) : Props :=
  {| color := Some c; disabled := isDisabled; visible := None;
     iconMode := None; animateFrom := None; extended := None; style := None;
     theme := lightTheme |}.

(** The caller passes a style whose flattened form has the background [bg]. *)
Definition styledProps (bg : Color.t) : Props :=
  {| color := None; disabled := None; visible := None; iconMode := None;
     animateFrom := None; extended := None;
     style := Some {| backgroundColor := Some bg |}; theme := lightTheme |}.

Definition measured (w h : Q) : Measurement :=
  {| textWidth := w; textHeight := h |}.

Definition layoutEvent (ls : list TextLayoutLine) : NativeSyntheticEvent :=
  {| nativeEvent := {| lines := ls |} |}.

(** A contrast measure to run the resolver with: the distance between the
    lumas of the two colours. *)
Definition luma (c : Color.t) : Q :=
  (299 * inject_Z (Color.red c) + 587 * inject_Z (Color.green c)
   + 114 * inject_Z (Color.blue c)) / 1000.

Definition lumaContrast (ink bg : Color.t) : Q := Qabs (luma ink - luma bg).

(** [yields r q]: the computation [r] returns normally, with a number equal
    to [q]. *)
Definition yields (r : result Q) (q : Q) : Prop :=
  match r with
  | Ok v => v == q
  | Throw _ => False
  end.

(** * Properties *)

(** ** Constants *)

Lemma SIZE_eq : SIZE == 56.
Proof. reflexivity. Qed.

Lemma BORDER_RADIUS_eq : BORDER_RADIUS == 28.
Proof. reflexivity. Qed.

Lemma BORDER_RADIUS_half_SIZE : BORDER_RADIUS == SIZE / 2.
Proof. reflexivity. Qed.

(** ** Distance and extended width *)

Lemma isAnimatedFromRight_default (props : Props) :
  animateFrom props = None -> isAnimatedFromRight props = true.
Proof. unfold isAnimatedFromRight. intros ->. reflexivity. Qed.

Lemma distance_from_right (props : Props) (st : Measurement) :
  isAnimatedFromRight props = true ->
  distance props st == - (textWidth st + 28).
Proof.
  intros Hr. unfold distance. rewrite Hr.
  pose proof BORDER_RADIUS_eq. lra.
Qed.

Lemma distance_from_left (props : Props) (st : Measurement) :
  isAnimatedFromRight props = false ->
  distance props st == textWidth st + 28.
Proof.
  intros Hl. unfold distance. rewrite Hl.
  pose proof BORDER_RADIUS_eq. lra.
Qed.

Lemma distance_magnitude (props : Props) (st : Measurement) :
  0 <= textWidth st ->
  Qabs (distance props st) == textWidth st + 28.
Proof.
  intros Hw. destruct (isAnimatedFromRight props) eqn:Hdir.
  - rewrite (distance_from_right props st Hdir).
    rewrite Qabs_opp. apply Qabs_pos. lra.
  - rewrite (distance_from_left props st Hdir).
    apply Qabs_pos. lra.
Qed.

Lemma extendedWidth_eq (st : Measurement) :
  extendedWidth st == textWidth st + 84.
Proof. unfold extendedWidth, SIZE. lra. Qed.

(** C1.  For every measured label width [W >= 0] and every direction, the
    distance has magnitude [W + 28] (the width plus the corner radius, half
    of the 56-unit diameter) and is signed by the direction: [-(W + 28)] when
    animating from the right, which is the default, and [W + 28] when
    animating from the left. *)
Theorem distance_is_width_plus_radius_signed
    (props : Props) (st : Measurement) :
  0 <= textWidth st ->
  BORDER_RADIUS == 28 /\
  BORDER_RADIUS == SIZE / 2 /\
  Qabs (distance props st) == textWidth st + BORDER_RADIUS /\
  distance props st ==
    match animateFrom props with
    | None | Some FromRight => - (textWidth st + 28)
    | Some FromLeft => textWidth st + 28
    end.
Proof.
  intros Hw. split; [reflexivity|]. split; [reflexivity|]. split.
  - rewrite (distance_magnitude props st Hw), BORDER_RADIUS_eq. reflexivity.
  - destruct (animateFrom props) as [[|]|] eqn:Hdir.
    + apply distance_from_right. unfold isAnimatedFromRight.
      rewrite Hdir. reflexivity.
    + apply distance_from_left. unfold isAnimatedFromRight.
      rewrite Hdir. reflexivity.
    + apply distance_from_right. now apply isAnimatedFromRight_default.
Qed.

Lemma distance_is_width_plus_radius_signed_witness :
  0 <= textWidth (measured 72 19) /\
  Qabs (distance (defaultProps lightTheme) (measured 72 19))
    == 72 + BORDER_RADIUS /\
  distance (defaultProps lightTheme) (measured 72 19) == - (72 + 28) /\
  distance (extendedFrom FromLeft) (measured 72 19) == 72 + 28.
Proof.
  assert (Hw : 0 <= textWidth (measured 72 19)) by (simpl; lra).
  split; [exact Hw|]. split; [|split].
  - exact (proj1 (proj2 (proj2
      (distance_is_width_plus_radius_signed
         (defaultProps lightTheme) (measured 72 19) Hw)))).
  - exact (proj2 (proj2 (proj2
      (distance_is_width_plus_radius_signed
         (defaultProps lightTheme) (measured 72 19) Hw)))).
  - exact (proj2 (proj2 (proj2
      (distance_is_width_plus_radius_signed
         (extendedFrom FromLeft) (measured 72 19) Hw)))).
Defined.

(** ** Monotony of the distance in the measured width *)

Lemma toValue_extended (props : Props) (st : Measurement) :
  isExtended props = true -> toValue props st = distance props st.
Proof. unfold toValue. intros ->. reflexivity. Qed.

Lemma toValue_collapsed (props : Props) (st : Measurement) :
  isExtended props = false -> toValue props st = 0.
Proof. unfold toValue. intros ->. reflexivity. Qed.

(** C3, as stated, fails for the default direction: animating from the
    right, with [extended = true], the label widths [0 < 1] give the
    distances [-28] and [-29], so the wider label has the smaller distance. *)
Lemma distance_decreases_from_right :
  isExtended (extendedFrom FromRight) = true /\
  textWidth (measured 0 0) < textWidth (measured 1 0) /\
  distance (extendedFrom FromRight) (measured 0 0) == - 28 /\
  distance (extendedFrom FromRight) (measured 1 0) == - 29 /\
  ~ (distance (extendedFrom FromRight) (measured 0 0)
     < distance (extendedFrom FromRight) (measured 1 0)).
Proof.
  split; [reflexivity|]. split; [reflexivity|].
  split; [reflexivity|]. split; [reflexivity|].
  intros H. vm_compute in H. discriminate H.
Qed.

(** C3, amended.  For every pair of measured widths [0 <= w1 < w2], the
    direction held fixed and [extended = true], the magnitude of the
    recomputed distance (the animation target) strictly increases; the signed
    distance strictly increases when animating from the left and strictly
    decreases when animating from the right. *)
Theorem distance_magnitude_strictly_increasing
    (props : Props) (st1 st2 : Measurement) :
  isExtended props = true ->
  0 <= textWidth st1 ->
  textWidth st1 < textWidth st2 ->
  Qabs (toValue props st1) < Qabs (toValue props st2) /\
  (if isAnimatedFromRight props
   then toValue props st2 < toValue props st1
   else toValue props st1 < toValue props st2).
Proof.
  intros Hext Hw Hlt.
  rewrite !(toValue_extended props _ Hext). split.
  - rewrite !distance_magnitude; lra.
  - destruct (isAnimatedFromRight props) eqn:Hdir.
    + rewrite !(distance_from_right props _ Hdir). lra.
    + rewrite !(distance_from_left props _ Hdir). lra.
Qed.

Lemma distance_magnitude_strictly_increasing_witness :
  (0 <= textWidth (measured 0 0) /\
   textWidth (measured 0 0) < textWidth (measured 1 0)) /\
  (Qabs (toValue (extendedFrom FromRight) (measured 0 0))
   < Qabs (toValue (extendedFrom FromRight) (measured 1 0)) /\
   toValue (extendedFrom FromRight) (measured 1 0)
   < toValue (extendedFrom FromRight) (measured 0 0)) /\
  (Qabs (toValue (extendedFrom FromLeft) (measured 0 0))
   < Qabs (toValue (extendedFrom FromLeft) (measured 1 0)) /\
   toValue (extendedFrom FromLeft) (measured 0 0)
   < toValue (extendedFrom FromLeft) (measured 1 0)).
Proof.
  assert (Hw : 0 <= textWidth (measured 0 0)) by (simpl; lra).
  assert (Hlt : textWidth (measured 0 0) < textWidth (measured 1 0))
    by (simpl; lra).
  split; [split; assumption|]. split.
  - exact (distance_magnitude_strictly_increasing
             (extendedFrom FromRight) (measured 0 0) (measured 1 0)
             eq_refl Hw Hlt).
  - exact (distance_magnitude_strictly_increasing
             (extendedFrom FromLeft) (measured 0 0) (measured 1 0)
             eq_refl Hw Hlt).
Defined.

(** ** Direction symmetry *)

(** C7.  For every fixed measured width [W >= 0], the distance computed
    when animating from the left and the one computed when animating from the
    right have opposite signs and the same absolute value; the offset that
    [getSidesPosition] pins is the same [W + 28] on mirrored sides. *)
Theorem distance_direction_symmetry
    (propsL propsR : Props) (st : Measurement) :
  isAnimatedFromRight propsL = false ->
  isAnimatedFromRight propsR = true ->
  0 <= textWidth st ->
  distance propsR st < 0 /\
  0 < distance propsL st /\
  distance propsL st == - distance propsR st /\
  Qabs (distance propsL st) == Qabs (distance propsR st) /\
  (exists l, getSidesPosition propsR st
             = {| left_side := Some l; right_side := None |}
             /\ l == textWidth st + 28) /\
  (exists r, getSidesPosition propsL st
             = {| left_side := None; right_side := Some r |}
             /\ r == textWidth st + 28).
Proof.
  intros HL HR Hw.
  pose proof (distance_from_left propsL st HL) as EL.
  pose proof (distance_from_right propsR st HR) as ER.
  repeat split.
  - lra.
  - lra.
  - lra.
  - rewrite !distance_magnitude by exact Hw. reflexivity.
  - unfold getSidesPosition. rewrite HR.
    eexists. split; [reflexivity|]. lra.
  - unfold getSidesPosition. rewrite HL.
    eexists. split; [reflexivity|]. lra.
Qed.

Lemma distance_direction_symmetry_witness :
  0 <= textWidth (measured 72 19) /\
  distance (extendedFrom FromRight) (measured 72 19) < 0 /\
  0 < distance (extendedFrom FromLeft) (measured 72 19) /\
  distance (extendedFrom FromLeft) (measured 72 19)
    == - distance (extendedFrom FromRight) (measured 72 19).
Proof.
  assert (Hw : 0 <= textWidth (measured 72 19)) by (simpl; lra).
  pose proof (distance_direction_symmetry
                (extendedFrom FromLeft) (extendedFrom FromRight)
                (measured 72 19) eq_refl eq_refl Hw) as H.
  split; [exact Hw|].
  split; [exact (proj1 H)|].
  split; [exact (proj1 (proj2 H))|].
  exact (proj1 (proj2 (proj2 H))).
Defined.

(** ** Geometry before any measurement *)

(** C10.  With a stored text width of [0] (before any measurement has
    arrived, or for a zero-width label) the derived geometry is still
    nonzero: the extended width is [1.5 * 56 = 84], the distance has magnitude
    [28], and with [extended = true] the animation target is [-28] or [+28],
    not [0]. *)
Theorem zero_width_geometry (props : Props) (st : Measurement) :
  textWidth st == 0 ->
  isExtended props = true ->
  extendedWidth st == 1.5 * 56 /\
  extendedWidth st == 84 /\
  Qabs (distance props st) == 28 /\
  toValue props st == (if isAnimatedFromRight props then - 28 else 28) /\
  ~ toValue props st == 0.
Proof.
  intros Hw Hext.
  assert (Hd : toValue props st
               == (if isAnimatedFromRight props then - 28 else 28)).
  { rewrite (toValue_extended props st Hext).
    destruct (isAnimatedFromRight props) eqn:Hdir.
    - rewrite (distance_from_right props st Hdir). lra.
    - rewrite (distance_from_left props st Hdir). lra. }
  pose proof (extendedWidth_eq st) as He.
  repeat split.
  - lra.
  - lra.
  - rewrite distance_magnitude; lra.
  - exact Hd.
  - rewrite Hd. destruct (isAnimatedFromRight props); lra.
Qed.

Lemma zero_width_geometry_witness :
  textWidth initialMeasurement == 0 /\
  extendedWidth initialMeasurement == 84 /\
  Qabs (distance (extendedFrom FromRight) initialMeasurement) == 28 /\
  toValue (extendedFrom FromRight) initialMeasurement == - 28 /\
  toValue (extendedFrom FromLeft) initialMeasurement == 28.
Proof.
  assert (Hw : textWidth initialMeasurement == 0) by reflexivity.
  pose proof (zero_width_geometry
                (extendedFrom FromRight) initialMeasurement Hw eq_refl) as HR.
  pose proof (zero_width_geometry
                (extendedFrom FromLeft) initialMeasurement Hw eq_refl) as HL.
  split; [exact Hw|].
  split; [exact (proj1 (proj2 HR))|].
  split; [exact (proj1 (proj2 (proj2 HR)))|].
  split; [exact (proj1 (proj2 (proj2 (proj2 HR))))|].
  exact (proj1 (proj2 (proj2 (proj2 HL)))).
Defined.

(** ** Interpolation at the nodes of the input range *)

Lemma Qle_bool_false_iff (x y : Q) : Qle_bool x y = false <-> y < x.
Proof.
  split.
  - intros H. apply Qnot_le_lt. intros Hle.
    apply Qle_bool_iff in Hle. congruence.
  - intros H. destruct (Qle_bool x y) eqn:E; [|reflexivity].
    apply Qle_bool_iff in E. lra.
Qed.

Lemma interpolate_at_inputMin (a b x y : Q) :
  Animated.interpolate a a b x y == x.
Proof.
  unfold Animated.interpolate.
  destruct (Qeq_bool x y) eqn:Exy; [reflexivity|].
  destruct (Qeq_bool a b) eqn:Eab.
  - assert (Qle_bool a a = true) as -> by (apply Qle_bool_iff; lra).
    reflexivity.
  - apply Qeq_bool_neq in Eab. cbv zeta. field. lra.
Qed.

Lemma interpolate_at_inputMax (a b x y : Q) :
  ~ a == b -> Animated.interpolate b a b x y == y.
Proof.
  intros Hab. unfold Animated.interpolate.
  destruct (Qeq_bool x y) eqn:Exy.
  - now apply Qeq_bool_eq.
  - destruct (Qeq_bool a b) eqn:Eab.
    + apply Qeq_bool_eq in Eab. contradiction.
    + cbv zeta. field. lra.
Qed.

Section ThreeNodes.

Variables a b c x y z : Q.
Hypothesis Hab : a < b.
Hypothesis Hbc : b < c.

Let cfg : Animated.InterpolationConfig :=
  {| Animated.inputRange := [a; b; c]; Animated.outputRange := [x; y; z] |}.

Lemma three_nodes_valid :
  Animated.createInterpolation cfg = Ok (Animated.interpolation cfg).
Proof.
  unfold Animated.createInterpolation, Animated.checkValidInputRange.
  simpl.
  assert (Qle_bool a b = true) as -> by (apply Qle_bool_iff; lra).
  assert (Qle_bool b c = true) as -> by (apply Qle_bool_iff; lra).
  reflexivity.
Qed.

Lemma three_nodes_first : yields (Animated.Value_interpolate a cfg) x.
Proof.
  unfold Animated.Value_interpolate. rewrite three_nodes_valid. simpl.
  unfold Animated.interpolation, Animated.findRange. simpl.
  assert (Qle_bool a b = true) as -> by (apply Qle_bool_iff; lra).
  simpl. apply interpolate_at_inputMin.
Qed.

Lemma three_nodes_middle : yields (Animated.Value_interpolate b cfg) y.
Proof.
  unfold Animated.Value_interpolate. rewrite three_nodes_valid. simpl.
  unfold Animated.interpolation, Animated.findRange. simpl.
  assert (Qle_bool b b = true) as -> by (apply Qle_bool_iff; lra).
  simpl. apply interpolate_at_inputMax. lra.
Qed.

Lemma three_nodes_last : yields (Animated.Value_interpolate c cfg) z.
Proof.
  unfold Animated.Value_interpolate. rewrite three_nodes_valid. simpl.
  unfold Animated.interpolation, Animated.findRange. simpl.
  assert (Qle_bool c b = false) as -> by (apply Qle_bool_false_iff; lra).
  simpl. apply interpolate_at_inputMax. lra.
Qed.

End ThreeNodes.

Section TwoNodes.

Variables a b x y : Q.
Hypothesis Hab : a < b.

Let cfg : Animated.InterpolationConfig :=
  {| Animated.inputRange := [a; b]; Animated.outputRange := [x; y] |}.

Lemma two_nodes_valid :
  Animated.createInterpolation cfg = Ok (Animated.interpolation cfg).
Proof.
  unfold Animated.createInterpolation, Animated.checkValidInputRange.
  simpl.
  assert (Qle_bool a b = true) as -> by (apply Qle_bool_iff; lra).
  reflexivity.
Qed.

Lemma two_nodes_first : yields (Animated.Value_interpolate a cfg) x.
Proof.
  unfold Animated.Value_interpolate. rewrite two_nodes_valid.
  unfold cfg, Animated.interpolation, Animated.findRange. simpl.
  apply interpolate_at_inputMin.
Qed.

Lemma two_nodes_last : yields (Animated.Value_interpolate b cfg) y.
Proof.
  unfold Animated.Value_interpolate. rewrite two_nodes_valid.
  unfold cfg, Animated.interpolation, Animated.findRange. simpl.
  apply interpolate_at_inputMax. lra.
Qed.

End TwoNodes.

(** An input range whose first two nodes decrease is rejected. *)
Lemma decreasing_range_rejected (value a b : Q) (rest outs : list Q) :
  b < a ->
  Animated.Value_interpolate value
    {| Animated.inputRange := a :: b :: rest; Animated.outputRange := outs |}
  = Throw InvariantViolation.
Proof.
  intros Hba.
  unfold Animated.Value_interpolate, Animated.createInterpolation,
    Animated.checkValidInputRange.
  cbn [Animated.inputRange Animated.nonDecreasing].
  assert (Qle_bool a b = false) as -> by (apply Qle_bool_false_iff; lra).
  cbn [andb]. rewrite andb_false_r. reflexivity.
Qed.

Lemma distance_negative_from_right (props : Props) (st : Measurement) :
  isAnimatedFromRight props = true ->
  0 <= textWidth st ->
  distance props st < 0.
Proof.
  intros Hr Hw. rewrite (distance_from_right props st Hr). lra.
Qed.

Lemma distance_positive_from_left (props : Props) (st : Measurement) :
  isAnimatedFromRight props = false ->
  0 <= textWidth st ->
  0 < distance props st.
Proof.
  intros Hl Hw. rewrite (distance_from_left props st Hl). lra.
Qed.

(** ** Endpoints of the transition *)

Lemma pill_width_any_progress
    (props : Props) (st : Measurement) (animFAB : Q) :
  width_of (pillStyle props st animFAB) == textWidth st + 1.5 * 56.
Proof. simpl. unfold pill_width, extendedWidth, SIZE. reflexivity. Qed.

Lemma label_opacity_extended (props : Props) (st : Measurement) :
  0 <= textWidth st ->
  yields (label_opacity props st (distance props st)) 1.
Proof.
  intros Hw. unfold label_opacity, label_opacity_config.
  destruct (isAnimatedFromRight props) eqn:Hdir.
  - pose proof (distance_negative_from_right props st Hdir Hw).
    apply three_nodes_first; lra.
  - pose proof (distance_positive_from_left props st Hdir Hw).
    apply three_nodes_last; lra.
Qed.

Lemma Qmax_of_le (x y : Q) : y <= x -> Qmax x y == x.
Proof. intros H. now apply Q.max_l. Qed.

Lemma Qmax_of_ge (x y : Q) : x <= y -> Qmax x y == y.
Proof. intros H. now apply Q.max_r. Qed.

Lemma Qmin_of_le (x y : Q) : x <= y -> Qmin x y == x.
Proof. intros H. now apply Q.min_l. Qed.

Lemma Qmin_of_ge (x y : Q) : y <= x -> Qmin x y == y.
Proof. intros H. now apply Q.min_r. Qed.

(** The painted width along the transition: one diameter at rest, and one
    unit more for each unit the animated value has travelled. *)
Lemma pill_paintedWidth_between
    (props : Props) (st : Measurement) (v : Q) :
  0 <= textWidth st ->
  betweenEndpoints (distance props st) v ->
  pill_paintedWidth props st v == SIZE + Qabs v.
Proof.
  intros Hw Hv.
  pose proof (extendedWidth_eq st) as He.
  unfold pill_paintedWidth, pill_painted, innerWrapper_overflowHidden,
    clipTo, extent_width, pill_extent, innerWrapper_extent, sidesShift,
    pill_sides, getSidesPosition, pill_translateX, pill_width.
  destruct (isAnimatedFromRight props) eqn:Hdir;
    cbn [left_side right_side extent_start extent_end].
  - pose proof (distance_from_right props st Hdir) as Hd.
    destruct Hv as [Hv|Hv]; [|lra].
    rewrite (Qmax_of_ge 0 (- distance props st + v)) by lra.
    rewrite (Qmin_of_le (extendedWidth st)) by lra.
    rewrite Qmax_of_ge by lra.
    rewrite (Qabs_neg v) by lra. unfold SIZE. lra.
  - pose proof (distance_from_left props st Hdir) as Hd.
    destruct Hv as [Hv|Hv]; [lra|].
    rewrite (Qmax_of_le 0 (- distance props st + v)) by lra.
    rewrite (Qmin_of_ge (extendedWidth st)) by lra.
    rewrite Qmax_of_ge by lra.
    rewrite (Qabs_pos v) by lra. unfold SIZE. lra.
Qed.

(** C2.  Endpoint consistency, for every measured width [W >= 0] and both
    directions.  When the animated value is [0] (collapsed), the pill is
    painted with a width of the fixed diameter [56], under a height of [56]
    and a corner radius of [56 / 2 = 28], on the pill and on the wrapper that
    clips it: a circle.  When the animated value is [distance] (fully
    extended), the pill is painted with the width [W + 1.5 * 56], and the
    opacity of the label is [1]. *)
Theorem endpoint_consistency (props : Props) (st : Measurement) :
  0 <= textWidth st ->
  pill_paintedWidth props st 0 == 56 /\
  height_of (pillStyle props st 0) == 56 /\
  borderRadius_of (pillStyle props st 0) == 56 / 2 /\
  borderRadius_of (pillStyle props st 0) == 28 /\
  innerWrapper_borderRadius == 28 /\
  pill_paintedWidth props st (distance props st) == textWidth st + 1.5 * 56 /\
  yields (label_opacity props st (distance props st)) 1.
Proof.
  intros Hw.
  pose proof (distance_magnitude props st Hw) as Hm.
  assert (Hrest : betweenEndpoints (distance props st) 0).
  { destruct (isAnimatedFromRight props) eqn:Hdir.
    - pose proof (distance_negative_from_right props st Hdir Hw).
      left. lra.
    - pose proof (distance_positive_from_left props st Hdir Hw).
      right. lra. }
  assert (Hfull : betweenEndpoints (distance props st) (distance props st)).
  { destruct (isAnimatedFromRight props) eqn:Hdir.
    - pose proof (distance_negative_from_right props st Hdir Hw).
      left. lra.
    - pose proof (distance_positive_from_left props st Hdir Hw).
      right. lra. }
  split.
  { rewrite (pill_paintedWidth_between props st 0 Hw Hrest). reflexivity. }
  split; [reflexivity|]. split; [reflexivity|]. split; [reflexivity|].
  split; [reflexivity|]. split.
  { rewrite (pill_paintedWidth_between props st _ Hw Hfull), Hm.
    unfold SIZE. lra. }
  now apply label_opacity_extended.
Qed.

Lemma endpoint_consistency_witness :
  0 <= textWidth (measured 72 19) /\
  pill_paintedWidth (defaultProps lightTheme) (measured 72 19) 0 == 56 /\
  pill_paintedWidth (extendedFrom FromLeft) (measured 72 19) 0 == 56 /\
  pill_paintedWidth (defaultProps lightTheme) (measured 72 19)
    (distance (defaultProps lightTheme) (measured 72 19)) == 72 + 1.5 * 56 /\
  yields (label_opacity (defaultProps lightTheme) (measured 72 19)
            (distance (defaultProps lightTheme) (measured 72 19))) 1 /\
  yields (label_opacity (extendedFrom FromLeft) (measured 72 19)
            (distance (extendedFrom FromLeft) (measured 72 19))) 1.
Proof.
  assert (Hw : 0 <= textWidth (measured 72 19)) by (simpl; lra).
  pose proof (endpoint_consistency
                (defaultProps lightTheme) (measured 72 19) Hw) as HR.
  pose proof (endpoint_consistency
                (extendedFrom FromLeft) (measured 72 19) Hw) as HL.
  split; [exact Hw|].
  split; [exact (proj1 HR)|].
  split; [exact (proj1 HL)|].
  split; [exact (proj1 (proj2 (proj2 (proj2 (proj2 (proj2 HR))))))|].
  split; [exact (proj2 (proj2 (proj2 (proj2 (proj2 (proj2 HR))))))|].
  exact (proj2 (proj2 (proj2 (proj2 (proj2 (proj2 HL)))))).
Defined.

(** The raw [width] attribute of the pill, before clipping, is the extended
    width whatever the animated value holds. *)
Example pill_width_attribute_at_rest :
  width_of (pillStyle (defaultProps lightTheme) (measured 72 19) 0) == 156.
Proof. reflexivity. Qed.

(** ** Opacity of the two shadows *)

(** X5.  Animating from the right with a measured width [W >= 0], the two
    shadow curves pass through their nodes: the expanded silhouette has opacity [1] at [distance],
    [0.15] at [0.9 * distance] and [0] at [0]; the collapsed silhouette has
    [0], [0.85] and [1]. *)
Lemma shadow_opacity_from_right (props : Props) (st : Measurement) :
  isAnimatedFromRight props = true ->
  0 <= textWidth st ->
  yields (expandedShadow_opacity props st (distance props st)) 1 /\
  yields (expandedShadow_opacity props st (0.9 * distance props st)) 0.15 /\
  yields (expandedShadow_opacity props st 0) 0 /\
  yields (collapsedShadow_opacity props st (distance props st)) 0 /\
  yields (collapsedShadow_opacity props st (0.9 * distance props st)) 0.85 /\
  yields (collapsedShadow_opacity props st 0) 1.
Proof.
  intros Hdir Hw.
  pose proof (distance_negative_from_right props st Hdir Hw) as Hd.
  unfold expandedShadow_opacity, expandedShadow_opacity_config,
    collapsedShadow_opacity, collapsedShadow_opacity_config.
  repeat split;
    first [ apply three_nodes_first; lra
          | apply three_nodes_middle; lra
          | apply three_nodes_last; lra ].
Qed.

(** Animating from the left the distance is positive, so the input range
    [[distance; 0.9 * distance; 0]] of both shadows decreases and the
    interpolation is rejected, whatever the animated value holds. *)
Lemma shadow_opacity_from_left_rejected
    (props : Props) (st : Measurement) (animFAB : Q) :
  isAnimatedFromRight props = false ->
  0 <= textWidth st ->
  expandedShadow_opacity props st animFAB = Throw InvariantViolation /\
  collapsedShadow_opacity props st animFAB = Throw InvariantViolation.
Proof.
  intros Hdir Hw.
  pose proof (distance_positive_from_left props st Hdir Hw) as Hd.
  split; apply decreasing_range_rejected; lra.
Qed.

(** C4 at [animateFrom = 'left'] with a label measured 72 wide: the distance
    is [100] and the input range of both shadow opacities is [[100; 90; 0]],
    which the interpolation rejects.  The segment arithmetic alone, without
    the validation, does not give the documented values either: at
    [distance] the expanded silhouette gets [1/6] for [1] and the collapsed
    one [5/6] for [0]; at [0] they get [-15/2] for [0] and [17/2] for [1]. *)
Theorem shadow_opacity_from_left_diverges :
  let props := extendedFrom FromLeft in
  let st := measured 72 19 in
  distance props st == 100 /\
  expandedShadow_opacity props st (distance props st)
    = Throw InvariantViolation /\
  expandedShadow_opacity props st 0 = Throw InvariantViolation /\
  collapsedShadow_opacity props st (distance props st)
    = Throw InvariantViolation /\
  collapsedShadow_opacity props st 0 = Throw InvariantViolation /\
  Animated.interpolation (expandedShadow_opacity_config props st)
    (distance props st) == 1 / 6 /\
  Animated.interpolation (collapsedShadow_opacity_config props st)
    (distance props st) == 5 / 6 /\
  Animated.interpolation (expandedShadow_opacity_config props st) 0
    == - (15 / 2) /\
  Animated.interpolation (collapsedShadow_opacity_config props st) 0
    == 17 / 2.
Proof.
  cbv zeta. repeat split; vm_compute; reflexivity.
Qed.

(** ** Colours *)

Section Colours.

Variable contrast : Color.t -> Color.t -> Q.

Lemma getContrastingColor_choice (input light dark_ink : Color.t) :
  let c := getContrastingColor contrast input light dark_ink in
  (c = light \/ c = dark_ink) /\
  contrast light input <= contrast c input /\
  contrast dark_ink input <= contrast c input.
Proof.
  cbv zeta. unfold getContrastingColor.
  destruct (Qle_bool (contrast dark_ink input) (contrast light input))
    eqn:E.
  - apply Qle_bool_iff in E. split; [now left|]. split; lra.
  - apply Qle_bool_false_iff in E. split; [now right|]. split; lra.
Qed.

Lemma rippleColor_is_foreground_at_32 (props : Props) :
  let fg := foregroundColor contrast props in
  let ripple := rippleColor contrast props in
  Color.red ripple = Color.red fg /\
  Color.green ripple = Color.green fg /\
  Color.blue ripple = Color.blue fg /\
  Color.opacity ripple = 0.32.
Proof. cbv zeta. repeat split. Qed.

Lemma foregroundColor_override (props : Props) (c : Color.t) :
  color props = Some c -> foregroundColor contrast props = c.
Proof. unfold foregroundColor. intros ->. reflexivity. Qed.

Lemma foregroundColor_disabled (props : Props) :
  color props = None ->
  isDisabled props = true ->
  foregroundColor contrast props
  = if dark (theme props)
    then Color.RGBA 255 255 255 0.32
    else Color.RGBA 0 0 0 0.32.
Proof.
  unfold foregroundColor, neutralInk. intros -> ->.
  destruct (dark (theme props)); reflexivity.
Qed.

Lemma foregroundColor_contrasting (props : Props) :
  color props = None ->
  isDisabled props = false ->
  foregroundColor contrast props
  = getContrastingColor contrast
      (resolvedBackgroundColor props) white rgba_0_0_0_54.
Proof. unfold foregroundColor. intros -> ->. reflexivity. Qed.

End Colours.

(** C5.  The precedence of the contrast resolver, for every input: a
    supplied override colour is the foreground; otherwise, when disabled, the
    foreground is the neutral ink of the theme (white on a dark theme, black
    on a light one) at 32% opacity; otherwise it is the one of white and the
    near-black ['rgba(0, 0, 0, .54)'] that contrasts more against the
    background colour.  In every case the ripple colour is the chosen
    foreground at 32% opacity. *)
Theorem contrast_resolver_precedence
    (contrast : Color.t -> Color.t -> Q) (props : Props) :
  let fg := foregroundColor contrast props in
  let bg := resolvedBackgroundColor props in
  let ripple := rippleColor contrast props in
  (forall c, color props = Some c -> fg = c) /\
  (color props = None -> isDisabled props = true ->
   fg = if dark (theme props)
        then Color.RGBA 255 255 255 0.32
        else Color.RGBA 0 0 0 0.32) /\
  (color props = None -> isDisabled props = false ->
   (fg = white \/ fg = rgba_0_0_0_54) /\
   contrast white bg <= contrast fg bg /\
   contrast rgba_0_0_0_54 bg <= contrast fg bg) /\
  (Color.red ripple = Color.red fg /\
   Color.green ripple = Color.green fg /\
   Color.blue ripple = Color.blue fg /\
   Color.opacity ripple = 0.32).
Proof.
  cbv zeta. split; [|split; [|split]].
  - intros c Hc. now apply foregroundColor_override.
  - intros Hc Hd. now apply foregroundColor_disabled.
  - intros Hc Hd. rewrite (foregroundColor_contrasting contrast props Hc Hd).
    apply getContrastingColor_choice.
  - apply rippleColor_is_foreground_at_32.
Qed.

Lemma contrast_resolver_precedence_witness :
  foregroundColor lumaContrast
    (overrideProps (Color.RGBA 98 0 238 1) (Some true))
  = Color.RGBA 98 0 238 1 /\
  foregroundColor lumaContrast (disabledProps darkTheme)
  = Color.RGBA 255 255 255 0.32 /\
  foregroundColor lumaContrast (disabledProps lightTheme)
  = Color.RGBA 0 0 0 0.32 /\
  (foregroundColor lumaContrast (styledProps black) = white \/
   foregroundColor lumaContrast (styledProps black) = rgba_0_0_0_54) /\
  Color.opacity (rippleColor lumaContrast (styledProps black)) = 0.32.
Proof.
  split; [|split; [|split; [|split]]].
  - exact (proj1 (contrast_resolver_precedence lumaContrast
                    (overrideProps (Color.RGBA 98 0 238 1) (Some true)))
             (Color.RGBA 98 0 238 1) eq_refl).
  - exact (proj1 (proj2 (contrast_resolver_precedence lumaContrast
                           (disabledProps darkTheme))) eq_refl eq_refl).
  - exact (proj1 (proj2 (contrast_resolver_precedence lumaContrast
                           (disabledProps lightTheme))) eq_refl eq_refl).
  - exact (proj1 (proj1 (proj2 (proj2 (contrast_resolver_precedence
                           lumaContrast (styledProps black))))
                    eq_refl eq_refl)).
  - exact (proj2 (proj2 (proj2 (proj2 (proj2 (proj2
             (contrast_resolver_precedence lumaContrast
                (styledProps black)))))))).
Defined.

(** The resolver on the two extreme backgrounds, with the luma contrast:
    white ink on pure black, the near-black ink on pure white. *)
Example foregroundColor_on_black :
  foregroundColor lumaContrast (styledProps black) = white.
Proof. reflexivity. Qed.

Example foregroundColor_on_white :
  foregroundColor lumaContrast (styledProps white) = rgba_0_0_0_54.
Proof. reflexivity. Qed.

(** C6.  Whenever the button is disabled and the caller supplies neither a
    background through [style] nor an override colour, the background is the
    neutral ink at 12% opacity and the foreground the neutral ink at 32%
    opacity, on both themes; the ink is white on a dark theme and black on a
    light one. *)
Theorem disabled_default_colours
    (contrast : Color.t -> Color.t -> Q) (props : Props) :
  isDisabled props = true ->
  color props = None ->
  (forall s, style props = Some s -> backgroundColor s = None) ->
  resolvedBackgroundColor props
  = (if dark (theme props)
     then Color.RGBA 255 255 255 0.12
     else Color.RGBA 0 0 0 0.12) /\
  foregroundColor contrast props
  = (if dark (theme props)
     then Color.RGBA 255 255 255 0.32
     else Color.RGBA 0 0 0 0.32).
Proof.
  intros Hd Hc Hs. split.
  - unfold resolvedBackgroundColor. rewrite Hd.
    assert (backgroundColor
              (withDefault (style props) {| backgroundColor := None |})
            = None) as ->.
    { destruct (style props) as [s|] eqn:E; simpl; [now apply Hs|reflexivity]. }
    unfold withDefault, disabledColor, neutralInk.
    destruct (dark (theme props)); reflexivity.
  - now apply foregroundColor_disabled.
Qed.

Lemma disabled_default_colours_witness :
  (resolvedBackgroundColor (disabledProps lightTheme) = Color.RGBA 0 0 0 0.12
   /\ foregroundColor lumaContrast (disabledProps lightTheme)
      = Color.RGBA 0 0 0 0.32) /\
  (resolvedBackgroundColor (disabledProps darkTheme)
   = Color.RGBA 255 255 255 0.12
   /\ foregroundColor lumaContrast (disabledProps darkTheme)
      = Color.RGBA 255 255 255 0.32).
Proof.
  split.
  - apply (disabled_default_colours lumaContrast (disabledProps lightTheme));
      [reflexivity | reflexivity | intros s Hs; discriminate Hs].
  - apply (disabled_default_colours lumaContrast (disabledProps darkTheme));
      [reflexivity | reflexivity | intros s Hs; discriminate Hs].
Defined.

(** ** Text measurement *)

Lemma commit_both (st : Measurement) (w h : Q) :
  commit st [setTextWidth w; setTextHeight h]
  = {| textWidth := w; textHeight := h |}.
Proof. reflexivity. Qed.

Lemma commit_none (st : Measurement) : commit st [] = st.
Proof. reflexivity. Qed.

Lemma changed_iff (cw ch tw th : Q) :
  negb (Qeq_bool cw tw) || negb (Qeq_bool ch th) = true
  <-> (~ cw == tw \/ ~ ch == th).
Proof.
  rewrite orb_true_iff, !negb_true_iff. split.
  - intros [H|H]; [left|right]; now apply Qeq_bool_neq.
  - intros [H|H]; [left|right].
    + destruct (Qeq_bool cw tw) eqn:E; [|reflexivity].
      apply Qeq_bool_eq in E. contradiction.
    + destruct (Qeq_bool ch th) eqn:E; [|reflexivity].
      apply Qeq_bool_eq in E. contradiction.
Qed.

Lemma unchanged_iff (cw ch tw th : Q) :
  negb (Qeq_bool cw tw) || negb (Qeq_bool ch th) = false
  <-> (cw == tw /\ ch == th).
Proof.
  rewrite orb_false_iff, !negb_false_iff, !Qeq_bool_iff. reflexivity.
Qed.

Lemma onTextLayout_first_line
    (st : Measurement) (line0 : TextLayoutLine) (rest : list TextLayoutLine) :
  onTextLayout st (layoutEvent (line0 :: rest))
  = if negb (Qeq_bool (Math.ceil (width line0)) (textWidth st))
       || negb (Qeq_bool (Math.ceil (height line0)) (textHeight st))
    then Ok [setTextWidth (Math.ceil (width line0));
             setTextHeight (Math.ceil (height line0))]
    else Ok [].
Proof. reflexivity. Qed.

(** C8 on a layout event that reports no line, as a host does for a label
    with no text to lay out.  The handler reads [lines[0].width] with no
    guard, so it raises a [TypeError] instead of leaving the width at [0]:
    this holds from the initial state and from every other state. *)
Theorem onTextLayout_no_line_throws :
  onTextLayout initialMeasurement (layoutEvent []) = Throw TypeError /\
  (forall st : Measurement,
      onTextLayout st (layoutEvent []) = Throw TypeError).
Proof. split; [reflexivity|intros st; reflexivity]. Qed.

(** When the event does report a first line, of width [0], the handler
    returns normally and the stored width stays [0]. *)
Lemma onTextLayout_zero_width_line
    (h : Q) (rest : list TextLayoutLine) :
  exists us,
    onTextLayout initialMeasurement
      (layoutEvent ({| width := 0; height := h |} :: rest)) = Ok us /\
    textWidth (commit initialMeasurement us) == 0.
Proof.
  rewrite onTextLayout_first_line.
  destruct (negb _ || negb _); eexists; (split; [reflexivity|]);
    simpl; reflexivity.
Qed.

(** C9.  For every text-layout event that reports a first line, the handler
    calls the state setters if and only if the ceiling of the measured width
    or of the measured height differs from the stored value, and then the
    stored measurement becomes the new pair; when both are equal no setter is
    called and the stored measurement is left as it is. *)
Theorem measurement_updated_iff_changed
    (st : Measurement) (line0 : TextLayoutLine) (rest : list TextLayoutLine) :
  let currentWidth := Math.ceil (width line0) in
  let currentHeight := Math.ceil (height line0) in
  exists us,
    onTextLayout st (layoutEvent (line0 :: rest)) = Ok us /\
    (us <> [] <->
     (~ currentWidth == textWidth st \/ ~ currentHeight == textHeight st)) /\
    (us = [] <->
     (currentWidth == textWidth st /\ currentHeight == textHeight st)) /\
    (us = [] -> commit st us = st) /\
    (us <> [] ->
     commit st us
     = {| textWidth := currentWidth; textHeight := currentHeight |}).
Proof.
  cbv zeta. rewrite onTextLayout_first_line.
  destruct (negb (Qeq_bool (Math.ceil (width line0)) (textWidth st))
            || negb (Qeq_bool (Math.ceil (height line0)) (textHeight st)))
    eqn:E.
  - pose proof (proj1 (changed_iff _ _ _ _) E) as Hch.
    eexists. split; [reflexivity|]. split; [|split; [|split]].
    + split; [intros _; exact Hch | intros _; discriminate].
    + split; [discriminate|].
      intros [Hw Hh]. destruct Hch; contradiction.
    + discriminate.
    + intros _. apply commit_both.
  - pose proof (proj1 (unchanged_iff _ _ _ _) E) as Hun.
    eexists. split; [reflexivity|]. split; [|split; [|split]].
    + split; [intros H; now elim H|].
      destruct Hun as [Hw Hh]. intros [H|H]; contradiction.
    + split; [intros _; exact Hun | reflexivity].
    + intros _. apply commit_none.
    + intros H. now elim H.
Qed.

Lemma measurement_updated_iff_changed_witness :
  (exists us,
      onTextLayout (measured 72 19)
        (layoutEvent [{| width := 71.5; height := 18.2 |}]) = Ok us /\
      commit (measured 72 19) us = measured 72 19) /\
  (exists us,
      onTextLayout (measured 72 19)
        (layoutEvent [{| width := 80.25; height := 18.2 |}]) = Ok us /\
      commit (measured 72 19) us
      = {| textWidth := Math.ceil 80.25; textHeight := Math.ceil 18.2 |}).
Proof.
  split.
  - destruct (measurement_updated_iff_changed (measured 72 19)
                {| width := 71.5; height := 18.2 |} [])
      as [us [Hrun [_ [Hnil [Hkeep _]]]]].
    exists us. split; [exact Hrun|].
    apply Hkeep, Hnil. split; reflexivity.
  - destruct (measurement_updated_iff_changed (measured 72 19)
                {| width := 80.25; height := 18.2 |} [])
      as [us [Hrun [Hcons [_ [_ Hset]]]]].
    exists us. split; [exact Hrun|].
    apply Hset, Hcons. left. intros H. vm_compute in H. discriminate H.
Defined.

(** ** Interpolation between the nodes *)

Lemma interpolate_linear (v a b x y : Q) :
  ~ a == b ->
  Animated.interpolate v a b x y == (v - a) / (b - a) * (y - x) + x.
Proof.
  intros Hab. unfold Animated.interpolate.
  destruct (Qeq_bool x y) eqn:Exy.
  - apply Qeq_bool_eq in Exy. rewrite Exy. field. lra.
  - destruct (Qeq_bool a b) eqn:Eab.
    + apply Qeq_bool_eq in Eab. contradiction.
    + reflexivity.
Qed.

Lemma fraction_in_unit (v a b : Q) :
  a < b -> a <= v <= b ->
  0 <= (v - a) / (b - a) <= 1.
Proof.
  intros Hab [Hav Hvb]. split.
  - apply Qle_shift_div_l; lra.
  - apply Qle_shift_div_r; lra.
Qed.

Lemma interpolate_between_up (v a b x y : Q) :
  a < b -> a <= v <= b -> x <= y ->
  x <= Animated.interpolate v a b x y <= y.
Proof.
  intros Hab Hv Hxy. rewrite interpolate_linear by lra.
  pose proof (fraction_in_unit v a b Hab Hv) as [H0 H1].
  set (t := (v - a) / (b - a)) in *. split; nra.
Qed.

Lemma interpolate_between_down (v a b x y : Q) :
  a < b -> a <= v <= b -> y <= x ->
  y <= Animated.interpolate v a b x y <= x.
Proof.
  intros Hab Hv Hxy. rewrite interpolate_linear by lra.
  pose proof (fraction_in_unit v a b Hab Hv) as [H0 H1].
  set (t := (v - a) / (b - a)) in *. split; nra.
Qed.

Section ThreeNodesAt.

Variables a b c x y z : Q.
Hypothesis Hab : a < b.
Hypothesis Hbc : b < c.

Let cfg3 : Animated.InterpolationConfig :=
  {| Animated.inputRange := [a; b; c]; Animated.outputRange := [x; y; z] |}.

Lemma three_nodes_run (v : Q) :
  Animated.Value_interpolate v cfg3 = Ok (Animated.interpolation cfg3 v).
Proof.
  unfold Animated.Value_interpolate.
  unfold cfg3. rewrite (three_nodes_valid a b c x y z Hab Hbc). reflexivity.
Qed.

Lemma three_nodes_lower (v : Q) :
  v <= b ->
  Animated.interpolation cfg3 v = Animated.interpolate v a b x y.
Proof.
  intros Hv. unfold cfg3, Animated.interpolation, Animated.findRange. simpl.
  assert (Qle_bool v b = true) as -> by (now apply Qle_bool_iff).
  reflexivity.
Qed.

Lemma three_nodes_upper (v : Q) :
  b < v ->
  Animated.interpolation cfg3 v = Animated.interpolate v b c y z.
Proof.
  intros Hv. unfold cfg3, Animated.interpolation, Animated.findRange. simpl.
  assert (Qle_bool v b = false) as -> by (now apply Qle_bool_false_iff).
  reflexivity.
Qed.

End ThreeNodesAt.

Section TwoNodesAt.

Variables a b x y : Q.
Hypothesis Hab : a < b.

Let cfg2 : Animated.InterpolationConfig :=
  {| Animated.inputRange := [a; b]; Animated.outputRange := [x; y] |}.

Lemma two_nodes_run (v : Q) :
  Animated.Value_interpolate v cfg2 = Ok (Animated.interpolate v a b x y).
Proof.
  unfold Animated.Value_interpolate.
  unfold cfg2. rewrite (two_nodes_valid a b x y Hab). reflexivity.
Qed.

End TwoNodesAt.

(** ** The squash, the label and the shadows along the whole transition *)

(** X1.  For every measured width [W >= 0] and both directions, the vertical
    scale of the wrapper is [1] at rest and [0.9] when fully extended, and it
    stays within [[0.9, 1]] for every value of the animated value between the
    two endpoints. *)
Theorem wrapper_scaleY_endpoints_and_bounds
    (props : Props) (st : Measurement) :
  0 <= textWidth st ->
  yields (wrapper_scaleY props st 0) 1 /\
  yields (wrapper_scaleY props st (distance props st)) SCALE /\
  (forall v, betweenEndpoints (distance props st) v ->
             exists s, wrapper_scaleY props st v = Ok s /\ 0.9 <= s <= 1).
Proof.
  intros Hw. unfold wrapper_scaleY.
  destruct (isAnimatedFromRight props) eqn:Hdir.
  - pose proof (distance_negative_from_right props st Hdir Hw) as Hd.
    split; [apply two_nodes_last; lra|].
    split; [apply two_nodes_first; lra|].
    intros v [Hv|Hv]; [|lra].
    rewrite two_nodes_run by lra. eexists. split; [reflexivity|].
    apply interpolate_between_up; unfold SCALE; lra.
  - pose proof (distance_positive_from_left props st Hdir Hw) as Hd.
    split; [apply two_nodes_first; lra|].
    split; [apply two_nodes_last; lra|].
    intros v [Hv|Hv]; [lra|].
    rewrite two_nodes_run by lra. eexists. split; [reflexivity|].
    pose proof (interpolate_between_down v 0 (distance props st) 1 SCALE)
      as Hb.
    unfold SCALE in *. apply Hb; lra.
Qed.

Lemma wrapper_scaleY_endpoints_and_bounds_witness :
  0 <= textWidth (measured 72 19) /\
  yields (wrapper_scaleY (extendedFrom FromLeft) (measured 72 19) 0) 1 /\
  yields (wrapper_scaleY (extendedFrom FromLeft) (measured 72 19)
            (distance (extendedFrom FromLeft) (measured 72 19))) SCALE /\
  (exists s, wrapper_scaleY (defaultProps lightTheme) (measured 72 19) (- 50)
             = Ok s /\ 0.9 <= s <= 1).
Proof.
  assert (Hw : 0 <= textWidth (measured 72 19)) by (simpl; lra).
  pose proof (wrapper_scaleY_endpoints_and_bounds
                (extendedFrom FromLeft) (measured 72 19) Hw) as HL.
  pose proof (wrapper_scaleY_endpoints_and_bounds
                (defaultProps lightTheme) (measured 72 19) Hw) as HR.
  split; [exact Hw|].
  split; [exact (proj1 HL)|].
  split; [exact (proj1 (proj2 HL))|].
  apply (proj2 (proj2 HR)). left. split; vm_compute; discriminate.
Defined.

(** X2.  For every measured width [W >= 0] and both directions, the label
    is fully transparent for every value of the animated value between the
    collapsed endpoint and 70% of the distance, and its opacity stays within
    [[0, 1]] over the whole transition. *)
Theorem label_opacity_hidden_then_bounded
    (props : Props) (st : Measurement) :
  0 <= textWidth st ->
  (forall v, betweenEndpoints (0.7 * distance props st) v ->
             yields (label_opacity props st v) 0) /\
  (forall v, betweenEndpoints (distance props st) v ->
             exists o, label_opacity props st v = Ok o /\ 0 <= o <= 1).
Proof.
  intros Hw. unfold label_opacity, label_opacity_config.
  destruct (isAnimatedFromRight props) eqn:Hdir.
  - pose proof (distance_negative_from_right props st Hdir Hw) as Hd.
    set (d := distance props st) in *. split.
    + intros v [Hv|Hv]; [|lra].
      rewrite three_nodes_run by lra. simpl.
      destruct (Qlt_le_dec (0.7 * d) v) as [Hlt|Hle].
      * rewrite three_nodes_upper by lra. reflexivity.
      * rewrite three_nodes_lower by lra.
        assert (Hveq : v == 0.7 * d) by lra.
        rewrite interpolate_linear by lra. rewrite Hveq. field. lra.
    + intros v [Hv|Hv]; [|lra].
      rewrite three_nodes_run by lra. eexists. split; [reflexivity|].
      destruct (Qlt_le_dec (0.7 * d) v) as [Hlt|Hle].
      * rewrite three_nodes_upper by lra.
        pose proof (interpolate_between_up v (0.7 * d) 0 0 0
                      ltac:(lra) ltac:(lra) ltac:(lra)).
        lra.
      * rewrite three_nodes_lower by lra.
        apply interpolate_between_down; lra.
  - pose proof (distance_positive_from_left props st Hdir Hw) as Hd.
    set (d := distance props st) in *. split.
    + intros v [Hv|Hv]; [lra|].
      rewrite three_nodes_run by lra. simpl.
      rewrite three_nodes_lower by lra. reflexivity.
    + intros v [Hv|Hv]; [lra|].
      rewrite three_nodes_run by lra. eexists. split; [reflexivity|].
      destruct (Qlt_le_dec (0.7 * d) v) as [Hlt|Hle].
      * rewrite three_nodes_upper by lra.
        apply interpolate_between_up; lra.
      * rewrite three_nodes_lower by lra.
        pose proof (interpolate_between_up v 0 (0.7 * d) 0 0
                      ltac:(lra) ltac:(lra) ltac:(lra)).
        lra.
Qed.

Lemma label_opacity_hidden_then_bounded_witness :
  0 <= textWidth (measured 72 19) /\
  yields (label_opacity (defaultProps lightTheme) (measured 72 19) (- 35)) 0 /\
  (exists o, label_opacity (extendedFrom FromLeft) (measured 72 19) 85
             = Ok o /\ 0 <= o <= 1).
Proof.
  assert (Hw : 0 <= textWidth (measured 72 19)) by (simpl; lra).
  pose proof (label_opacity_hidden_then_bounded
                (defaultProps lightTheme) (measured 72 19) Hw) as HR.
  pose proof (label_opacity_hidden_then_bounded
                (extendedFrom FromLeft) (measured 72 19) Hw) as HL.
  split; [exact Hw|]. split.
  - apply (proj1 HR). left. split; vm_compute; discriminate.
  - apply (proj2 HL). right. split; vm_compute; discriminate.
Defined.

(** X3.  For every measured width [W >= 0], the label is not shifted when
    the button is fully extended, and at rest it is shifted by one diameter
    towards the side the button is animated from: [+56] from the right,
    [-56] from the left.  In between the shift never exceeds one diameter. *)
Theorem label_translateX_endpoints_and_bounds
    (props : Props) (st : Measurement) :
  0 <= textWidth st ->
  yields (label_translateX props st (distance props st)) 0 /\
  yields (label_translateX props st 0)
    (if isAnimatedFromRight props then 56 else - 56) /\
  (forall v, betweenEndpoints (distance props st) v ->
             exists t, label_translateX props st v = Ok t /\ Qabs t <= 56).
Proof.
  intros Hw. unfold label_translateX.
  destruct (isAnimatedFromRight props) eqn:Hdir.
  - pose proof (distance_negative_from_right props st Hdir Hw) as Hd.
    split; [apply two_nodes_first; lra|].
    split; [apply two_nodes_last; lra|].
    intros v [Hv|Hv]; [|lra].
    rewrite two_nodes_run by lra. eexists. split; [reflexivity|].
    pose proof (interpolate_between_up v (distance props st) 0 0 SIZE
                  ltac:(lra) ltac:(lra) ltac:(unfold SIZE; lra)) as Hb.
    unfold SIZE in *. apply Qabs_Qle_condition. lra.
  - pose proof (distance_positive_from_left props st Hdir Hw) as Hd.
    split; [apply two_nodes_last; lra|].
    split; [apply two_nodes_first; lra|].
    intros v [Hv|Hv]; [lra|].
    rewrite two_nodes_run by lra. eexists. split; [reflexivity|].
    pose proof (interpolate_between_up v 0 (distance props st) (- SIZE) 0
                  ltac:(lra) ltac:(lra) ltac:(unfold SIZE; lra)) as Hb.
    unfold SIZE in *. apply Qabs_Qle_condition. lra.
Qed.

Lemma label_translateX_endpoints_and_bounds_witness :
  0 <= textWidth (measured 72 19) /\
  yields (label_translateX (defaultProps lightTheme) (measured 72 19) 0) 56 /\
  yields (label_translateX (extendedFrom FromLeft) (measured 72 19) 0)
    (- 56) /\
  yields (label_translateX (extendedFrom FromLeft) (measured 72 19)
            (distance (extendedFrom FromLeft) (measured 72 19))) 0.
Proof.
  assert (Hw : 0 <= textWidth (measured 72 19)) by (simpl; lra).
  pose proof (label_translateX_endpoints_and_bounds
                (defaultProps lightTheme) (measured 72 19) Hw) as HR.
  pose proof (label_translateX_endpoints_and_bounds
                (extendedFrom FromLeft) (measured 72 19) Hw) as HL.
  split; [exact Hw|].
  split; [exact (proj1 (proj2 HR))|].
  split; [exact (proj1 (proj2 HL))|].
  exact (proj1 HL).
Defined.

(** X4.  Animating from the right with a measured width [W >= 0], the two
    shadows cross-fade: for every value of the animated value both opacities
    are computed and they add up to [1]; between the two endpoints each of
    them stays within [[0, 1]]. *)
Theorem shadow_opacities_cross_fade
    (props : Props) (st : Measurement) (v : Q) :
  isAnimatedFromRight props = true ->
  0 <= textWidth st ->
  exists e c,
    expandedShadow_opacity props st v = Ok e /\
    collapsedShadow_opacity props st v = Ok c /\
    e + c == 1 /\
    (betweenEndpoints (distance props st) v -> 0 <= e <= 1 /\ 0 <= c <= 1).
Proof.
  intros Hdir Hw.
  pose proof (distance_negative_from_right props st Hdir Hw) as Hd.
  unfold expandedShadow_opacity, expandedShadow_opacity_config,
    collapsedShadow_opacity, collapsedShadow_opacity_config.
  set (d := distance props st) in *.
  rewrite !three_nodes_run by lra.
  do 2 eexists. split; [reflexivity|]. split; [reflexivity|].
  destruct (Qlt_le_dec (0.9 * d) v) as [Hlt|Hle].
  - rewrite !three_nodes_upper by lra.
    assert (Hsum : Animated.interpolate v (0.9 * d) 0 0.15 0
                   + Animated.interpolate v (0.9 * d) 0 0.85 1 == 1).
    { rewrite !interpolate_linear by lra. field. lra. }
    split; [exact Hsum|].
    intros [Hv|Hv]; [|lra].
    pose proof (interpolate_between_down v (0.9 * d) 0 0.15 0
                  ltac:(lra) ltac:(lra) ltac:(lra)).
    pose proof (interpolate_between_up v (0.9 * d) 0 0.85 1
                  ltac:(lra) ltac:(lra) ltac:(lra)).
    lra.
  - rewrite !three_nodes_lower by lra.
    assert (Hsum : Animated.interpolate v d (0.9 * d) 1 0.15
                   + Animated.interpolate v d (0.9 * d) 0 0.85 == 1).
    { rewrite !interpolate_linear by lra. field. lra. }
    split; [exact Hsum|].
    intros [Hv|Hv]; [|lra].
    pose proof (interpolate_between_down v d (0.9 * d) 1 0.15
                  ltac:(lra) ltac:(lra) ltac:(lra)).
    pose proof (interpolate_between_up v d (0.9 * d) 0 0.85
                  ltac:(lra) ltac:(lra) ltac:(lra)).
    lra.
Qed.

Lemma shadow_opacities_cross_fade_witness :
  0 <= textWidth (measured 72 19) /\
  exists e c,
    expandedShadow_opacity (defaultProps lightTheme) (measured 72 19) (- 95)
    = Ok e /\
    collapsedShadow_opacity (defaultProps lightTheme) (measured 72 19) (- 95)
    = Ok c /\
    e + c == 1.
Proof.
  assert (Hw : 0 <= textWidth (measured 72 19)) by (simpl; lra).
  split; [exact Hw|].
  destruct (shadow_opacities_cross_fade
              (defaultProps lightTheme) (measured 72 19) (- 95) eq_refl Hw)
    as [e [c [He [Hc [Hsum _]]]]].
  exists e, c. split; [exact He|]. split; [exact Hc|exact Hsum].
Defined.

Lemma shadow_opacity_from_right_witness :
  0 <= textWidth (measured 72 19) /\
  yields (expandedShadow_opacity (defaultProps lightTheme) (measured 72 19)
            (0.9 * distance (defaultProps lightTheme) (measured 72 19)))
    0.15 /\
  yields (collapsedShadow_opacity (defaultProps lightTheme) (measured 72 19)
            (0.9 * distance (defaultProps lightTheme) (measured 72 19)))
    0.85.
Proof.
  assert (Hw : 0 <= textWidth (measured 72 19)) by (simpl; lra).
  pose proof (shadow_opacity_from_right
                (defaultProps lightTheme) (measured 72 19) eq_refl Hw) as H.
  split; [exact Hw|].
  split; [exact (proj1 (proj2 H))|].
  exact (proj1 (proj2 (proj2 (proj2 (proj2 H))))).
Defined.

Lemma yields_eq (r : result Q) (q q' : Q) :
  yields r q -> q == q' -> yields r q'.
Proof.
  destruct r as [v|e]; simpl; [|trivial].
  intros Hv Hq. now rewrite Hv.
Qed.

(** X6.  Animating from the left with a measured width [W >= 0], the
    distance is positive, so every interpolation of the two shadows (both
    opacities, and the corner radius, the translation and the horizontal
    scale of the collapsed silhouette) is given an input range that starts
    with [distance] and ends with [0]: all five are rejected, whatever the
    animated value holds. *)
Theorem shadows_from_left_rejected
    (props : Props) (st : Measurement) (v : Q) :
  isAnimatedFromRight props = false ->
  0 <= textWidth st ->
  expandedShadow_opacity props st v = Throw InvariantViolation /\
  collapsedShadow_opacity props st v = Throw InvariantViolation /\
  collapsedShadow_borderRadius props st v = Throw InvariantViolation /\
  collapsedShadow_translateX props st v = Throw InvariantViolation /\
  collapsedShadow_scaleX props st v = Throw InvariantViolation.
Proof.
  intros Hdir Hw.
  pose proof (distance_positive_from_left props st Hdir Hw) as Hd.
  repeat split; apply decreasing_range_rejected; lra.
Qed.

Lemma shadows_from_left_rejected_witness :
  0 <= textWidth initialMeasurement /\
  collapsedShadow_scaleX (extendedFrom FromLeft) initialMeasurement 0
  = Throw InvariantViolation /\
  collapsedShadow_borderRadius (extendedFrom FromLeft) initialMeasurement 28
  = Throw InvariantViolation.
Proof.
  assert (Hw : 0 <= textWidth initialMeasurement) by (simpl; lra).
  split; [exact Hw|]. split.
  - exact (proj2 (proj2 (proj2 (proj2
      (shadows_from_left_rejected
         (extendedFrom FromLeft) initialMeasurement 0 eq_refl Hw))))).
  - exact (proj1 (proj2 (proj2
      (shadows_from_left_rejected
         (extendedFrom FromLeft) initialMeasurement 28 eq_refl Hw)))).
Defined.

(** ** Geometry of the silhouettes and of the pill *)

(** X7.  Animating from the right with a measured width [W >= 0], the
    collapsed silhouette is the circle of the resting button when the
    animated value is [0] (corner radius [28], horizontal scale [1], shifted
    by [W + 28]), and covers the extended pill when it is [distance]: its
    width [56] times its horizontal scale is the extended width, and its
    centre, shifted by half the distance, is the centre of the extended
    width. *)
Theorem collapsed_silhouette_tracks_pill
    (props : Props) (st : Measurement) :
  isAnimatedFromRight props = true ->
  0 <= textWidth st ->
  yields (collapsedShadow_borderRadius props st 0) 28 /\
  yields (collapsedShadow_scaleX props st 0) 1 /\
  yields (collapsedShadow_translateX props st 0) (textWidth st + 28) /\
  (exists sx tx,
      collapsedShadow_scaleX props st (distance props st) = Ok sx /\
      collapsedShadow_translateX props st (distance props st) = Ok tx /\
      collapsedShadow_width * sx == extendedWidth st /\
      tx + collapsedShadow_width / 2 == extendedWidth st / 2).
Proof.
  intros Hdir Hw.
  pose proof (distance_negative_from_right props st Hdir Hw) as Hd.
  pose proof (distance_magnitude props st Hw) as Hm.
  pose proof (extendedWidth_eq st) as He.
  unfold collapsedShadow_borderRadius, collapsedShadow_scaleX,
    collapsedShadow_translateX, Math.abs.
  split.
  { apply (yields_eq _ BORDER_RADIUS); [apply two_nodes_last; lra|].
    exact BORDER_RADIUS_eq. }
  split; [apply two_nodes_last; lra|].
  split.
  - apply (yields_eq _ (Qabs (distance props st)));
      [apply two_nodes_last; lra | exact Hm].
  - pose proof (two_nodes_first (distance props st) 0
                  (extendedWidth st / SIZE) 1 Hd) as Hsx.
    pose proof (two_nodes_first (distance props st) 0
                  (Qabs (distance props st) / 2) (Qabs (distance props st))
                  Hd) as Htx.
    unfold yields in *.
    destruct (Animated.Value_interpolate (distance props st)
                {| Animated.inputRange := [distance props st; 0];
                   Animated.outputRange := [extendedWidth st / SIZE; 1] |})
      as [sx|]; [|contradiction].
    destruct (Animated.Value_interpolate (distance props st)
                {| Animated.inputRange := [distance props st; 0];
                   Animated.outputRange :=
                     [Qabs (distance props st) / 2;
                      Qabs (distance props st)] |})
      as [tx|]; [|contradiction].
    exists sx, tx. split; [reflexivity|]. split; [reflexivity|].
    unfold collapsedShadow_width. rewrite Hsx, Htx, Hm, He.
    unfold SIZE. split; field.
Qed.

Lemma collapsed_silhouette_tracks_pill_witness :
  0 <= textWidth (measured 72 19) /\
  yields (collapsedShadow_borderRadius
            (defaultProps lightTheme) (measured 72 19) 0) 28 /\
  yields (collapsedShadow_translateX
            (defaultProps lightTheme) (measured 72 19) 0) (72 + 28).
Proof.
  assert (Hw : 0 <= textWidth (measured 72 19)) by (simpl; lra).
  pose proof (collapsed_silhouette_tracks_pill
                (defaultProps lightTheme) (measured 72 19) eq_refl Hw) as H.
  split; [exact Hw|].
  split; [exact (proj1 H)|].
  exact (proj1 (proj2 (proj2 H))).
Defined.

(** X17.  For every measured width [W >= 0] and both directions, while the
    animated value [v] is between [0] and [distance] the pill is painted
    with the width [56 + |v|]: never less than one diameter and never more
    than the extended width. *)
Theorem pill_painted_width_follows_travel
    (props : Props) (st : Measurement) (v : Q) :
  0 <= textWidth st ->
  betweenEndpoints (distance props st) v ->
  pill_paintedWidth props st v == 56 + Qabs v /\
  56 <= pill_paintedWidth props st v <= extendedWidth st.
Proof.
  intros Hw Hv.
  pose proof (pill_paintedWidth_between props st v Hw Hv) as Hp.
  pose proof (extendedWidth_eq st) as He.
  pose proof (distance_magnitude props st Hw) as Hm.
  assert (Hb : 0 <= Qabs v <= textWidth st + 28).
  { split; [apply Qabs_nonneg|].
    destruct Hv as [[H1 H2]|[H1 H2]].
    - rewrite (Qabs_neg v) by lra.
      rewrite (Qabs_neg (distance props st)) in Hm by lra. lra.
    - rewrite (Qabs_pos v) by lra.
      rewrite (Qabs_pos (distance props st)) in Hm by lra. lra. }
  unfold SIZE in Hp. split; [exact Hp|]. rewrite Hp, He. lra.
Qed.

Lemma pill_painted_width_follows_travel_witness :
  0 <= textWidth (measured 72 19) /\
  betweenEndpoints (distance (defaultProps lightTheme) (measured 72 19))
    (- 50) /\
  pill_paintedWidth (defaultProps lightTheme) (measured 72 19) (- 50)
  == 56 + 50.
Proof.
  assert (Hw : 0 <= textWidth (measured 72 19)) by (simpl; lra).
  assert (Hv : betweenEndpoints
                 (distance (defaultProps lightTheme) (measured 72 19))
                 (- 50)).
  { left. split; vm_compute; discriminate. }
  split; [exact Hw|]. split; [exact Hv|].
  exact (proj1 (pill_painted_width_follows_travel
                  (defaultProps lightTheme) (measured 72 19) (- 50) Hw Hv)).
Defined.

(** X8.  For every measured width [W >= 0] and both directions, the width
    of the pill is the travel of the animated value plus one diameter:
    [extendedWidth = |distance| + 56], and the offset pinned by
    [getSidesPosition] plus one diameter is the extended width as well. *)
Theorem extended_width_is_travel_plus_diameter
    (props : Props) (st : Measurement) :
  0 <= textWidth st ->
  extendedWidth st == Qabs (distance props st) + SIZE /\
  exists offset,
    (if isAnimatedFromRight props
     then left_side (getSidesPosition props st)
     else right_side (getSidesPosition props st)) = Some offset /\
    offset + SIZE == extendedWidth st /\
    (if isAnimatedFromRight props
     then right_side (getSidesPosition props st)
     else left_side (getSidesPosition props st)) = None.
Proof.
  intros Hw.
  pose proof (distance_magnitude props st Hw) as Hm.
  pose proof (extendedWidth_eq st) as He.
  split; [rewrite Hm, He; unfold SIZE; lra|].
  unfold getSidesPosition.
  destruct (isAnimatedFromRight props) eqn:Hdir; simpl;
    eexists; (split; [reflexivity|]); (split; [|reflexivity]).
  - rewrite (distance_from_right props st Hdir), He. unfold SIZE. lra.
  - rewrite (distance_from_left props st Hdir), He. unfold SIZE. lra.
Qed.

Lemma extended_width_is_travel_plus_diameter_witness :
  0 <= textWidth (measured 72 19) /\
  extendedWidth (measured 72 19)
  == Qabs (distance (extendedFrom FromLeft) (measured 72 19)) + SIZE.
Proof.
  assert (Hw : 0 <= textWidth (measured 72 19)) by (simpl; lra).
  split; [exact Hw|].
  exact (proj1 (extended_width_is_travel_plus_diameter
                  (extendedFrom FromLeft) (measured 72 19) Hw)).
Defined.

(** ** Text measurement across renders *)

Lemma ceil_bounds (x : Q) : x <= Math.ceil x /\ Math.ceil x < x + 1.
Proof.
  unfold Math.ceil. split; [apply Qle_ceiling|].
  pose proof (Qceiling_lt x) as H.
  unfold Z.sub in H. rewrite inject_Z_plus, inject_Z_opp in H.
  change (inject_Z 1) with 1 in H. lra.
Qed.

Lemma handleTextLayout_first_line
    (st : Measurement) (line0 : TextLayoutLine) (rest : list TextLayoutLine) :
  exists st',
    handleTextLayout st (layoutEvent (line0 :: rest)) = Ok st' /\
    textWidth st' == Math.ceil (width line0) /\
    textHeight st' == Math.ceil (height line0).
Proof.
  unfold handleTextLayout. rewrite onTextLayout_first_line.
  destruct (negb (Qeq_bool (Math.ceil (width line0)) (textWidth st))
            || negb (Qeq_bool (Math.ceil (height line0)) (textHeight st)))
    eqn:E; simpl.
  - eexists. split; [reflexivity|]. simpl. split; reflexivity.
  - apply unchanged_iff in E. destruct E as [Ew Eh].
    eexists. split; [reflexivity|]. simpl. split; symmetry; assumption.
Qed.

(** X9.  Handling the same text-layout event a second time, in the render
    that the first handling produced, calls no setter: whenever the handler
    returns, the measurement it leads to is a fixed point of that event. *)
Theorem onTextLayout_settles
    (st : Measurement) (ev : NativeSyntheticEvent) (us : list SetState) :
  onTextLayout st ev = Ok us ->
  onTextLayout (commit st us) ev = Ok [] /\
  handleTextLayout (commit st us) ev = Ok (commit st us).
Proof.
  intros Hrun.
  assert (Hagain : onTextLayout (commit st us) ev = Ok []).
  { destruct ev as [[ls]]. destruct ls as [|line0 rest].
    - discriminate Hrun.
    - change {| nativeEvent := {| lines := line0 :: rest |} |}
        with (layoutEvent (line0 :: rest)) in *.
      rewrite onTextLayout_first_line in Hrun.
      rewrite onTextLayout_first_line.
      destruct (negb (Qeq_bool (Math.ceil (width line0)) (textWidth st))
                || negb (Qeq_bool (Math.ceil (height line0)) (textHeight st)))
        eqn:E; injection Hrun as <-.
      + rewrite commit_both. simpl. rewrite !Qeq_bool_refl. reflexivity.
      + rewrite commit_none, E. reflexivity. }
  split; [exact Hagain|].
  unfold handleTextLayout. rewrite Hagain. reflexivity.
Qed.

Lemma onTextLayout_settles_witness :
  onTextLayout initialMeasurement
    (layoutEvent [{| width := 71.5; height := 18.2 |}])
  = Ok [setTextWidth (Math.ceil 71.5); setTextHeight (Math.ceil 18.2)] /\
  onTextLayout
    (commit initialMeasurement
       [setTextWidth (Math.ceil 71.5); setTextHeight (Math.ceil 18.2)])
    (layoutEvent [{| width := 71.5; height := 18.2 |}])
  = Ok [].
Proof.
  assert (Hrun : onTextLayout initialMeasurement
                   (layoutEvent [{| width := 71.5; height := 18.2 |}])
                 = Ok [setTextWidth (Math.ceil 71.5);
                       setTextHeight (Math.ceil 18.2)]) by reflexivity.
  split; [exact Hrun|].
  exact (proj1 (onTextLayout_settles initialMeasurement
                  (layoutEvent [{| width := 71.5; height := 18.2 |}])
                  _ Hrun)).
Defined.

(** X10.  After every text-layout event that reports a first line, the
    stored width and height are the ceilings of that line's width and height,
    whatever was stored before: whole numbers, never below the measured
    value and less than one unit above it. *)
Theorem stored_measurement_is_ceiling
    (st : Measurement) (line0 : TextLayoutLine) (rest : list TextLayoutLine) :
  exists st',
    handleTextLayout st (layoutEvent (line0 :: rest)) = Ok st' /\
    (textWidth st' == inject_Z (Qceiling (width line0)) /\
     textHeight st' == inject_Z (Qceiling (height line0))) /\
    (width line0 <= textWidth st' /\ textWidth st' < width line0 + 1) /\
    (height line0 <= textHeight st' /\ textHeight st' < height line0 + 1).
Proof.
  destruct (handleTextLayout_first_line st line0 rest)
    as [st' [Hrun [Hw Hh]]].
  exists st'. split; [exact Hrun|].
  pose proof (ceil_bounds (width line0)) as [Bw1 Bw2].
  pose proof (ceil_bounds (height line0)) as [Bh1 Bh2].
  split; [split; assumption|]. split; split; lra.
Qed.

Lemma handleTextLayout_with_line
    (st : Measurement) (ev : NativeSyntheticEvent) :
  hasFirstLine ev = true -> exists st', handleTextLayout st ev = Ok st'.
Proof.
  destruct ev as [[ls]]. destruct ls as [|l rest]; simpl.
  - discriminate.
  - intros _.
    destruct (handleTextLayout_first_line st l rest) as [st' [Hrun _]].
    exists st'. exact Hrun.
Qed.

Lemma handledInTurn_app
    (evs1 evs2 : list NativeSyntheticEvent) (st mid st' : Measurement) :
  handledInTurn st evs1 mid ->
  handledInTurn mid evs2 st' ->
  handledInTurn st (evs1 ++ evs2) st'.
Proof.
  intros H1 H2. induction H1 as [st|st st1 mid ev evs Hstep _ IH]; simpl.
  - exact H2.
  - eapply handled_next; [exact Hstep|]. now apply IH.
Qed.

Lemma handledInTurn_app_inv
    (evs1 evs2 : list NativeSyntheticEvent) (st st' : Measurement) :
  handledInTurn st (evs1 ++ evs2) st' ->
  exists mid, handledInTurn st evs1 mid /\ handledInTurn mid evs2 st'.
Proof.
  revert st. induction evs1 as [|ev evs1 IH]; intros st H; simpl in H.
  - exists st. split; [constructor|exact H].
  - inversion H as [|st0 st1 st2 ev0 evs0 Hstep Hrest]; subst.
    destruct (IH st1 Hrest) as [mid [Ha Hb]].
    exists mid. split; [|exact Hb].
    eapply handled_next; [exact Hstep|exact Ha].
Qed.

Lemma handledInTurn_runs
    (evs : list NativeSyntheticEvent) (st : Measurement) :
  forallb hasFirstLine evs = true ->
  exists st', handledInTurn st evs st'.
Proof.
  revert st. induction evs as [|ev evs IH]; intros st Hall.
  - exists st. constructor.
  - simpl in Hall. apply andb_true_iff in Hall. destruct Hall as [Hev Hall].
    destruct (handleTextLayout_with_line st ev Hev) as [st1 Hstep].
    destruct (IH st1 Hall) as [st' Hrest].
    exists st'. eapply handled_next; [exact Hstep|exact Hrest].
Qed.

(** X12.  The stored measurement depends on the latest event only: a
    sequence of text-layout events that all report a line is handled to the
    end, and the stored width and height are then the ceilings of the first
    line of the last event, whatever the initial measurement and the earlier
    events were. *)
Theorem latest_measurement_wins
    (st : Measurement) (evs : list NativeSyntheticEvent)
    (line0 : TextLayoutLine) (rest : list TextLayoutLine) :
  forallb hasFirstLine evs = true ->
  (exists st',
      handledInTurn st (evs ++ [layoutEvent (line0 :: rest)]) st') /\
  (forall st',
      handledInTurn st (evs ++ [layoutEvent (line0 :: rest)]) st' ->
      textWidth st' == Math.ceil (width line0) /\
      textHeight st' == Math.ceil (height line0)).
Proof.
  intros Hall. split.
  - destruct (handledInTurn_runs evs st Hall) as [st1 Hst1].
    destruct (handleTextLayout_first_line st1 line0 rest)
      as [st' [Hrun _]].
    exists st'. apply (handledInTurn_app _ _ _ st1); [exact Hst1|].
    eapply handled_next; [exact Hrun|constructor].
  - intros st' H.
    destruct (handledInTurn_app_inv _ _ _ _ H) as [mid [_ Hlast]].
    inversion Hlast as [|st0 st1 st2 ev0 evs0 Hstep Hrest]; subst.
    inversion Hrest; subst.
    destruct (handleTextLayout_first_line mid line0 rest)
      as [st2 [Hrun Hceil]].
    rewrite Hstep in Hrun. injection Hrun as <-. exact Hceil.
Qed.

Lemma latest_measurement_wins_witness :
  exists st',
    handledInTurn (measured 10 10)
      ([layoutEvent [{| width := 30.5; height := 12 |}];
        layoutEvent [{| width := 99; height := 40 |}]]
       ++ [layoutEvent [{| width := 71.5; height := 18.2 |}]]) st' /\
    textWidth st' == 72 /\
    textHeight st' == 19.
Proof.
  destruct (latest_measurement_wins (measured 10 10)
              [layoutEvent [{| width := 30.5; height := 12 |}];
               layoutEvent [{| width := 99; height := 40 |}]]
              {| width := 71.5; height := 18.2 |} [] eq_refl)
    as [[st' Hrun] Hlast].
  exists st'. split; [exact Hrun|].
  destruct (Hlast st' Hrun) as [Hw Hh]. split.
  - rewrite Hw. reflexivity.
  - rewrite Hh. reflexivity.
Defined.

(** X13.  A stored width that is not negative stays so: if every handled
    event measures a first line of non-negative width, the stored width after
    the sequence is non-negative, and the distance computed from it has a
    magnitude of at least the corner radius [28] in both directions. *)
Theorem stored_width_stays_nonnegative
    (evs : list NativeSyntheticEvent) (st st' : Measurement) :
  0 <= textWidth st ->
  Forall (fun ev => forall line0,
              nth_error (lines (nativeEvent ev)) 0 = Some line0 ->
              0 <= width line0) evs ->
  handledInTurn st evs st' ->
  0 <= textWidth st' /\
  (forall props, 28 <= Qabs (distance props st')).
Proof.
  intros Hst Hevs Hrun.
  assert (Hnn : 0 <= textWidth st').
  { induction Hrun as [st|st st1 st' ev evs Hstep _ IH].
    - exact Hst.
    - inversion Hevs as [|ev0 evs0 Hev Hrest]; subst.
      apply IH; [|exact Hrest].
      destruct ev as [[ls]]. destruct ls as [|line0 rest];
        [discriminate Hstep|].
      destruct (handleTextLayout_first_line st line0 rest)
        as [st2 [Hrun2 [Hw _]]].
      change {| nativeEvent := {| lines := line0 :: rest |} |}
        with (layoutEvent (line0 :: rest)) in Hstep.
      rewrite Hstep in Hrun2. injection Hrun2 as <-.
      rewrite Hw.
      pose proof (proj1 (ceil_bounds (width line0))).
      pose proof (Hev line0 eq_refl). lra. }
  split; [exact Hnn|].
  intros props. rewrite (distance_magnitude props st' Hnn). lra.
Qed.

Lemma stored_width_stays_nonnegative_witness :
  0 <= textWidth initialMeasurement /\
  exists st',
    handledInTurn initialMeasurement
      [layoutEvent [{| width := 0; height := 0 |}];
       layoutEvent [{| width := 71.5; height := 18.2 |}]] st' /\
    0 <= textWidth st' /\
    28 <= Qabs (distance (extendedFrom FromLeft) st').
Proof.
  assert (Hst : 0 <= textWidth initialMeasurement) by (simpl; lra).
  split; [exact Hst|].
  assert (Hrun : handledInTurn initialMeasurement
                   [layoutEvent [{| width := 0; height := 0 |}];
                    layoutEvent [{| width := 71.5; height := 18.2 |}]]
                   (measured (Math.ceil 71.5) (Math.ceil 18.2))).
  { eapply handled_next; [reflexivity|].
    eapply handled_next; [reflexivity|]. constructor. }
  exists (measured (Math.ceil 71.5) (Math.ceil 18.2)).
  split; [exact Hrun|].
  assert (Hevs : Forall (fun ev => forall line0,
                            nth_error (lines (nativeEvent ev)) 0 = Some line0 ->
                            0 <= width line0)
                   [layoutEvent [{| width := 0; height := 0 |}];
                    layoutEvent [{| width := 71.5; height := 18.2 |}]]).
  { repeat constructor; intros line0 H; injection H as <-; simpl; lra. }
  pose proof (stored_width_stays_nonnegative _ initialMeasurement _
                Hst Hevs Hrun) as [Hnn Hd].
  split; [exact Hnn|exact (Hd (extendedFrom FromLeft))].
Defined.

(** ** Colours and effects *)

(** X14.  The background of the pill: a background colour found in the
    flattened style is used as it is, also when the button is disabled;
    without one, an enabled button takes the accent colour of the theme. *)
Theorem background_precedence (props : Props) :
  (forall s c, style props = Some s -> backgroundColor s = Some c ->
               resolvedBackgroundColor props = c) /\
  ((forall s, style props = Some s -> backgroundColor s = None) ->
   isDisabled props = false ->
   resolvedBackgroundColor props = colors_accent (theme props)).
Proof.
  unfold resolvedBackgroundColor. split.
  - intros s c Hs Hc. rewrite Hs. simpl. rewrite Hc. reflexivity.
  - intros Hs Hd. rewrite Hd.
    destruct (style props) as [s|]; simpl; [|reflexivity].
    rewrite (Hs s eq_refl). reflexivity.
Qed.

Lemma background_precedence_witness :
  resolvedBackgroundColor (styledProps black) = black /\
  resolvedBackgroundColor (defaultProps darkTheme) = Color.RGBA 3 218 196 1.
Proof.
  split.
  - exact (proj1 (background_precedence (styledProps black))
             {| backgroundColor := Some black |} black eq_refl eq_refl).
  - apply (proj2 (background_precedence (defaultProps darkTheme)));
      [intros s Hs; discriminate Hs | reflexivity].
Defined.

(** X15.  The ripple takes the foreground colour and sets its alpha to
    [0.32], it does not multiply alphas: whenever the foreground already has
    alpha [0.32], as it always has on a disabled button without a colour
    override, the ripple colour is the foreground colour itself. *)
Theorem ripple_of_translucent_foreground
    (contrast : Color.t -> Color.t -> Q) (props : Props) :
  (Color.opacity (foregroundColor contrast props) = 0.32 ->
   rippleColor contrast props = foregroundColor contrast props) /\
  (color props = None -> isDisabled props = true ->
   rippleColor contrast props = foregroundColor contrast props).
Proof.
  assert (H : Color.opacity (foregroundColor contrast props) = 0.32 ->
              rippleColor contrast props = foregroundColor contrast props).
  { unfold rippleColor, Color.string, Color.rgb, Color.color, Color.alpha.
    destruct (foregroundColor contrast props) as [r g b a]. simpl.
    intros ->. reflexivity. }
  split; [exact H|].
  intros Hc Hd. apply H.
  rewrite (foregroundColor_disabled contrast props Hc Hd).
  destruct (dark (theme props)); reflexivity.
Qed.

Lemma ripple_of_translucent_foreground_witness :
  rippleColor lumaContrast (disabledProps darkTheme)
  = foregroundColor lumaContrast (disabledProps darkTheme).
Proof.
  exact (proj2 (ripple_of_translucent_foreground lumaContrast
                  (disabledProps darkTheme)) eq_refl eq_refl).
Defined.

(** X16.  On the first render the show/hide animation is started towards
    the value the visibility already has, so nothing moves, while the extend
    animation starts from [0]: with [extended = true] and a stored width
    [W >= 0] it has to travel [W + 28], and with [extended = false] nothing.
    Hiding and extending last [150 * scale], showing lasts [200 * scale]. *)
Theorem first_render_animations (props : Props) (st : Measurement) :
  0 <= textWidth st ->
  timing_toValue (visibilityTiming props) == initialVisibility props /\
  timing_duration (visibilityTiming props)
  == (if isVisible props then 200 else 150) * animation_scale (theme props) /\
  timing_duration (extendTiming props st)
  == 150 * animation_scale (theme props) /\
  Qabs (timing_toValue (extendTiming props st) - initialAnimFAB)
  == (if isExtended props then textWidth st + 28 else 0).
Proof.
  intros Hw. unfold visibilityTiming, initialVisibility, initialAnimFAB.
  split; [destruct (isVisible props); reflexivity|].
  split; [destruct (isVisible props); reflexivity|].
  split; [reflexivity|].
  unfold extendTiming, toValue. cbn [timing_toValue].
  destruct (isExtended props); cbn [negb].
  - rewrite <- (distance_magnitude props st Hw).
    apply Qabs_wd. lra.
  - reflexivity.
Qed.

Lemma first_render_animations_witness :
  0 <= textWidth initialMeasurement /\
  timing_toValue (visibilityTiming (defaultProps lightTheme)) == 1 /\
  Qabs (timing_toValue (extendTiming (extendedFrom FromRight)
                          initialMeasurement) - initialAnimFAB) == 28.
Proof.
  assert (Hw : 0 <= textWidth initialMeasurement) by (simpl; lra).
  pose proof (first_render_animations
                (defaultProps lightTheme) initialMeasurement Hw) as HV.
  pose proof (first_render_animations
                (extendedFrom FromRight) initialMeasurement Hw) as HE.
  split; [exact Hw|].
  split; [exact (proj1 HV)|].
  exact (proj2 (proj2 (proj2 HE))).
Defined.
